(** * Iron & Copper: core mechanics (dice, skill checks, attributes)

    A shallow embedding of [ironcopper/core.py] and
    [ironcopper/core/attributes.py].

    The Python functions read and write three pieces of module-level
    state: the generator hidden behind the [random] module, the two
    verbosity flags [verboseRolls] and [verboseAttributeChecks], and the
    standard output that [print] appends to.  They are gathered in one
    record, [world], and every function is a computation in a small
    state-and-exception monad over it.  Python integers are unbounded
    and are modelled by [Z]. *)

From Stdlib Require Import ZArith String Ascii List Bool Lia.
From Stdlib Require Import DecimalString.
Import ListNotations.

Local Open Scope Z_scope.

(** ** The random source

    [random.randint(lo, hi)] and [random.seed(s)] are library code.  The
    embedding only relies on their contract: seeding rebuilds the whole
    generator state from the seed, and a draw with [lo <= hi] lands in
    the closed range and yields the next generator state. *)

Class RandomSource (G : Type) : Type := {
  rs_seed : Z -> G;
  rs_randint : Z -> Z -> G -> Z * G;
  rs_randint_range :
    forall lo hi g, lo <= hi -> lo <= fst (rs_randint lo hi g) <= hi
}.

(** [n] successive draws in [lo..hi], in the order they are made,
    and the generator that is left. *)
Fixpoint rs_draws {G} `{RandomSource G} (lo hi : Z) (n : nat) (g : G)
  : list Z * G :=
  match n with
  | O => ([], g)
  | S k =>
      let (x, g1) := rs_randint lo hi g in
      let (xs, g2) := rs_draws lo hi k g1 in
      (x :: xs, g2)
  end.

(** A generator for running the code on concrete inputs: a queue of
    forced faces in front of a linear congruential generator.  A forced
    face that lies in the requested range is served first; otherwise the
    congruential generator is stepped. *)
Module Scripted.

Record t : Type := mk { forced : list Z; lcg : Z }.

Definition lcg_next (x : Z) : Z := (x * 1103515245 + 12345) mod 2147483648.

Definition seed (s : Z) : t := mk [] (s mod 2147483648).

Definition randint (lo hi : Z) (g : t) : Z * t :=
  let fallback :=
    let x := lcg_next (lcg g) in
    (lo + (x / 65536) mod (hi - lo + 1), mk (tl (forced g)) x) in
  match forced g with
  | f :: rest =>
      if (lo <=? f) && (f <=? hi) then (f, mk rest (lcg g)) else fallback
  | [] => fallback
  end.

Definition script (faces : list Z) : t := mk faces 0.

End Scripted.

(** ** Program state and the monad *)

Inductive exn : Type :=
| ValueError.

(** The result of running a computation: a value, a raised exception, or
    [OutOfFuel] when a loop was cut by the iteration bound of the model
    (Python itself has no such outcome). *)
Inductive res (A : Type) : Type :=
| Val (a : A)
| Exc (e : exn)
| OutOfFuel.
Arguments Val {A} a.
Arguments Exc {A} e.
Arguments OutOfFuel {A}.

Record world (G : Type) : Type := mkWorld {
  rng : G;
  verboseRolls : bool;
  verboseAttributeChecks : bool;
  stdout : list string
}.
Arguments mkWorld {G}.
Arguments rng {G}.
Arguments verboseRolls {G}.
Arguments verboseAttributeChecks {G}.
Arguments stdout {G}.

Definition M (G A : Type) : Type := world G -> res A * world G.

Definition ret {G A} (a : A) : M G A := fun w => (Val a, w).

Definition raise {G A} (e : exn) : M G A := fun w => (Exc e, w).

Definition bind {G A B} (m : M G A) (f : A -> M G B) : M G B :=
  fun w =>
    match m w with
    | (Val a, w') => f a w'
    | (Exc e, w') => (Exc e, w')
    | (OutOfFuel, w') => (OutOfFuel, w')
    end.

Declare Scope py_scope.
Delimit Scope py_scope with py.
Notation "x <- m ;; k" := (bind m (fun x => k))
  (at level 61, m at next level, right associativity) : py_scope.
Notation "m ;; k" := (bind m (fun _ => k))
  (at level 61, right associativity) : py_scope.
Local Open Scope py_scope.

Definition set_rng {G} (g : G) (w : world G) : world G :=
  mkWorld g (verboseRolls w) (verboseAttributeChecks w) (stdout w).

(** [print(line)]. *)
Definition print {G} (line : string) : M G unit :=
  fun w =>
    (Val tt,
     mkWorld (rng w) (verboseRolls w) (verboseAttributeChecks w)
             (stdout w ++ [line])).

Definition get_verboseRolls {G} : M G bool :=
  fun w => (Val (verboseRolls w), w).

Definition get_verboseAttributeChecks {G} : M G bool :=
  fun w => (Val (verboseAttributeChecks w), w).

(** ** Python built-ins used by the source *)

(** [random.randint(lo, hi)]: raises [ValueError] on an empty range. *)
Definition randint {G} `{RandomSource G} (lo hi : Z) : M G Z :=
  fun w =>
    if hi <? lo then (Exc ValueError, w)
    else let (x, g') := rs_randint lo hi (rng w) in (Val x, set_rng g' w).

(** [random.seed(s)], exported by the module as [setSeed]. *)
Definition setSeed {G} `{RandomSource G} (s : Z) : M G unit :=
  fun w => (Val tt, set_rng (rs_seed s) w).

(** [[random.randint(lo, hi) for _ in range(n)]]; [range(n)] is empty
    when [n <= 0]. *)
Fixpoint randints_nat {G} `{RandomSource G} (lo hi : Z) (n : nat)
  : M G (list Z) :=
  match n with
  | O => ret []
  | S k =>
      x <- randint lo hi ;;
      xs <- randints_nat lo hi k ;;
      ret (x :: xs)
  end.

Definition randints {G} `{RandomSource G} (lo hi n : Z) : M G (list Z) :=
  randints_nat lo hi (Z.to_nat n).

(** [max(xs)] and [min(xs)]: [ValueError] on an empty list. *)
Definition py_max {G} (xs : list Z) : M G Z :=
  match xs with
  | [] => raise ValueError
  | x :: rest => ret (fold_left Z.max rest x)
  end.

Definition py_min {G} (xs : list Z) : M G Z :=
  match xs with
  | [] => raise ValueError
  | x :: rest => ret (fold_left Z.min rest x)
  end.

(** [sum(xs)]. *)
Definition py_sum (xs : list Z) : Z := fold_left Z.add xs 0.

(** [str(n)] for an integer. *)
Definition str_int (n : Z) : string := NilZero.string_of_int (Z.to_int n).

(** [str(xs)] for a list of integers: [[9, 4, 16]]. *)
Fixpoint join_ints (xs : list Z) : string :=
  match xs with
  | [] => EmptyString
  | [x] => str_int x
  | x :: rest => (str_int x ++ ", " ++ join_ints rest)%string
  end.

Definition str_list (xs : list Z) : string :=
  ("[" ++ join_ints xs ++ "]")%string.

(** ** core.py *)

Definition _d20label (adv : Z) : string :=
  let label := "D20"%string in
  if 0 <? adv then (label ++ "+")%string
  else if adv <? 0 then (label ++ "-")%string
  else label.

Definition d20 {G} `{RandomSource G} (adv : Z) : M G Z :=
  rolls <- randints 1 20 (Z.abs adv + 1) ;;
  result <- (if 0 <? adv then py_max rolls else py_min rolls) ;;
  verbose <- get_verboseRolls ;;
  (if verbose then
     if negb (adv =? 0) then
       print (_d20label adv ++ ": " ++ str_list rolls ++ " → "
                ++ str_int result)%string
     else
       print (_d20label adv ++ ": " ++ str_int result)%string
   else ret tt) ;;
  ret result.

Definition _d6label (count : Z) (critical : bool) : string :=
  let label := (str_int count ++ "D6")%string in
  if critical then (label ++ "+")%string else label.

Definition d6 {G} `{RandomSource G} (count : Z) (critical : bool) : M G Z :=
  rolls <- randints 1 6 count ;;
  let result := py_sum rolls in
  let result := if critical then result + count * 6 else result in
  verbose <- get_verboseRolls ;;
  (if verbose then
     if 1 <? count then
       print (_d6label count critical ++ ": " ++ str_list rolls ++ " → "
                ++ str_int result)%string
     else
       print (_d6label count critical ++ ": " ++ str_int result)%string
   else ret tt) ;;
  ret result.

Inductive Outcome : Type :=
| CriticalFail
| Fail
| NearFail
| Success
| CriticalSuccess.

(** The integer each member of the enumeration carries. *)
Definition Outcome_value (o : Outcome) : Z :=
  match o with
  | CriticalFail => -2
  | Fail => -1
  | NearFail => 0
  | Success => 1
  | CriticalSuccess => 2
  end.

Definition check {G} `{RandomSource G} (threshold adv : Z) : M G Outcome :=
  roll <- d20 adv ;;
  if roll =? 1 then ret CriticalFail
  else if roll =? 20 then ret CriticalSuccess
  else if roll <? threshold then ret Fail
  else if threshold <? roll then ret Success
  else ret NearFail.

(** Truth value of an [Optional[int]]: [None] and [0] are false. *)
Definition truthy (m : option Z) : bool :=
  match m with
  | None => false
  | Some n => negb (n =? 0)
  end.

(** The guard [maxRolls and rollCount >= maxRolls].  When it holds,
    [maxRolls] is an integer, and that integer is what the loop returns
    as the count. *)
Definition budget_spent (maxRolls : option Z) (rollCount : Z) : option Z :=
  match maxRolls with
  | Some n => if truthy maxRolls && (n <=? rollCount) then Some n else None
  | None => None
  end.

Definition out_of_fuel {G A} : M G A := fun w => (OutOfFuel, w).

(** The [while] loop of [extendedCheck], entered with the given
    [accumulator] and [rollCount]; [fuel] bounds the number of
    iterations. *)
Fixpoint extendedCheck_loop {G} `{RandomSource G} (fuel : nat)
    (threshold : Z) (maxRolls : option Z) (accumulator rollCount : Z)
  : M G (Outcome * Z) :=
  if accumulator <? threshold then
    match budget_spent maxRolls rollCount with
    | Some n => ret (Fail, n)
    | None =>
        match fuel with
        | O => out_of_fuel
        | S fuel' =>
            roll <- d20 0 ;;
            extendedCheck_loop fuel' threshold maxRolls
                               (accumulator + roll) (rollCount + 1)
        end
    end
  else ret (Success, rollCount).

(** [extendedCheck].  Every roll adds at least 1 to the accumulator, so
    the loop body runs at most [threshold] times; the loop is given that
    many iterations.  [extendedCheck_total] shows that the bound is never
    hit and [extendedCheck_loop_fuel_irrelevant] that a larger one gives
    the same run. *)
Definition extendedCheck {G} `{RandomSource G}
    (threshold : Z) (maxRolls : option Z) : M G (Outcome * Z) :=
  extendedCheck_loop (Z.to_nat threshold) threshold maxRolls 0 0.

(** ** core/attributes.py

    The module imports [Outcome], [check] and [extendedCheck] by name;
    they are the functions of [core.py] above. *)

Record Attribute : Type := mkAttribute {
  score : Z;
  label : string
}.

Definition modifier (self : Attribute) : Z := score self - 10.

Definition Attribute_check {G} `{RandomSource G}
    (self : Attribute) (threshold adv : Z) : M G Outcome :=
  verbose <- get_verboseAttributeChecks ;;
  (if verbose then
     print (label self ++ " modifier: " ++ str_int (modifier self))%string
   else ret tt) ;;
  check (threshold - modifier self) adv.

Definition Attribute_extendedCheck {G} `{RandomSource G}
    (self : Attribute) (threshold : Z) (maxRolls : option Z)
  : M G (Outcome * Z) :=
  verbose <- get_verboseAttributeChecks ;;
  (if verbose then
     print (label self ++ " modifier: " ++ str_int (modifier self))%string
   else ret tt) ;;
  extendedCheck (threshold - modifier self) maxRolls.

Definition Attribute_str (self : Attribute) : string :=
  (label self ++ ": " ++ str_int (score self))%string.

Definition Strength (score : Z) : Attribute := mkAttribute score "Str".
Definition Dexterity (score : Z) : Attribute := mkAttribute score "Dex".
Definition Constitution (score : Z) : Attribute := mkAttribute score "Con".
Definition Intelligence (score : Z) : Attribute := mkAttribute score "Int".
Definition Wisdom (score : Z) : Attribute := mkAttribute score "Wis".
Definition Charisma (score : Z) : Attribute := mkAttribute score "Cha".

(** ** Sequences of calls

    A caller's session, for statements about reseeding: the four public
    functions of [core.py], called one after the other, with the values
    they return. *)

Inductive call : Type :=
| Call_d20 (adv : Z)
| Call_d6 (count : Z) (critical : bool)
| Call_check (threshold adv : Z)
| Call_extendedCheck (threshold : Z) (maxRolls : option Z).

Inductive retval : Type :=
| Ret_int (n : Z)
| Ret_outcome (o : Outcome)
| Ret_pair (o : Outcome) (n : Z).

Definition run_call {G} `{RandomSource G} (c : call) : M G retval :=
  match c with
  | Call_d20 adv => n <- d20 adv ;; ret (Ret_int n)
  | Call_d6 count critical => n <- d6 count critical ;; ret (Ret_int n)
  | Call_check threshold adv =>
      o <- check threshold adv ;; ret (Ret_outcome o)
  | Call_extendedCheck threshold maxRolls =>
      p <- extendedCheck threshold maxRolls ;; ret (Ret_pair (fst p) (snd p))
  end.

Fixpoint run_calls {G} `{RandomSource G} (cs : list call)
  : M G (list retval) :=
  match cs with
  | [] => ret []
  | c :: rest =>
      r <- run_call c ;;
      rs <- run_calls rest ;;
      ret (r :: rs)
  end.

(** [setSeed(seed)] followed by the calls. *)
Definition reseed_and_run {G} `{RandomSource G} (seed : Z) (cs : list call)
  : M G (list retval) :=
  setSeed seed ;; run_calls cs.

(** ** The scripted generator is a random source *)

Lemma Scripted_randint_range (lo hi : Z) (g : Scripted.t) :
  lo <= hi -> lo <= fst (Scripted.randint lo hi g) <= hi.
Proof.
  intros Hle. unfold Scripted.randint.
  assert (Hfb : lo <= lo + (Scripted.lcg_next (Scripted.lcg g) / 65536)
                          mod (hi - lo + 1) <= hi).
  { pose proof (Z.mod_pos_bound
                  (Scripted.lcg_next (Scripted.lcg g) / 65536)
                  (hi - lo + 1)).
    lia. }
  destruct (Scripted.forced g) as [|f rest]; simpl; [exact Hfb|].
  destruct (lo <=? f) eqn:E1; destruct (f <=? hi) eqn:E2; simpl;
    try exact Hfb.
  apply Z.leb_le in E1. apply Z.leb_le in E2. lia.
Qed.

#[export] Instance Scripted_source : RandomSource Scripted.t := {
  rs_seed := Scripted.seed;
  rs_randint := Scripted.randint;
  rs_randint_range := Scripted_randint_range
}.

(** A world whose next draws are the given faces, with tracing on. *)
Definition scripted_world (faces : list Z) : world Scripted.t :=
  mkWorld (Scripted.script faces) true true [].

(** ** Vocabulary of the statements *)

(** The first [k] faces a D20 shows from generator state [g], and their
    sum. *)
Definition d20_faces {G} `{RandomSource G} (k : nat) (g : G) : list Z :=
  fst (rs_draws 1 20 k g).

Definition d20_sum {G} `{RandomSource G} (k : nat) (g : G) : Z :=
  py_sum (d20_faces k g).

(** A computation is [oblivious] when its result and the generator it
    leaves depend on the generator it starts from only: neither the
    verbosity flags nor what was printed before have a say. *)
Definition oblivious {G A} (m : M G A) : Prop :=
  forall w1 w2 : world G,
    rng w1 = rng w2 ->
    fst (m w1) = fst (m w2) /\ rng (snd (m w1)) = rng (snd (m w2)).

(** Two worlds [agree] when they hold the same generator and the same
    setting of [verboseRolls], the flag [core.py] reads. *)
Definition agree {G} (w1 w2 : world G) : Prop :=
  rng w1 = rng w2 /\ verboseRolls w1 = verboseRolls w2.

(** A computation is [traced] when, from worlds that agree, it appends
    the same lines to the output, returns the same result and leaves
    worlds that agree. *)
Definition traced {G A} (m : M G A) : Prop :=
  forall w1 w2 : world G,
    agree w1 w2 ->
    fst (m w1) = fst (m w2)
    /\ agree (snd (m w1)) (snd (m w2))
    /\ exists out : list string,
         stdout (snd (m w1)) = stdout w1 ++ out
         /\ stdout (snd (m w2)) = stdout w2 ++ out.

(** A [silent] step returns nothing and does not touch the generator:
    all it may do is print. *)
Definition silent {G} (m : M G unit) : Prop :=
  forall w : world G, fst (m w) = Val tt /\ rng (snd (m w)) = rng w.

(** A computation [returns] when, from every world, it yields a value:
    no exception, and no iteration bound hit. *)
Definition returns {G A} (m : M G A) : Prop :=
  forall w : world G, exists (a : A) (w' : world G), m w = (Val a, w').

(** A result that is an exception. *)
Definition raised {A} (r : res A) : Prop := exists e : exn, r = Exc e.

(** * Properties *)

(** The examples of the docstrings, replayed on forced faces. *)
Example d20_regular :
  d20 0 (scripted_world [5])
  = (Val 5, mkWorld (Scripted.script []) true true ["D20: 5"%string]).
Proof. reflexivity. Qed.

Example d20_disadvantage :
  d20 (-1) (scripted_world [19; 3])
  = (Val 3,
     mkWorld (Scripted.script []) true true ["D20-: [19, 3] → 3"%string]).
Proof. reflexivity. Qed.

Example d20_double_advantage :
  d20 2 (scripted_world [9; 4; 16])
  = (Val 16,
     mkWorld (Scripted.script []) true true
             ["D20+: [9, 4, 16] → 16"%string]).
Proof. reflexivity. Qed.

Example d6_regular :
  d6 2 false (scripted_world [2; 5])
  = (Val 7, mkWorld (Scripted.script []) true true ["2D6: [2, 5] → 7"%string]).
Proof. reflexivity. Qed.

Example d6_critical :
  d6 3 true (scripted_world [1; 3; 1])
  = (Val 23,
     mkWorld (Scripted.script []) true true
             ["3D6+: [1, 3, 1] → 23"%string]).
Proof. reflexivity. Qed.

Example extendedCheck_budget :
  fst (extendedCheck 30 (Some 2) (scripted_world [10; 15])) = Val (Fail, 2).
Proof. reflexivity. Qed.

Example extendedCheck_three_rolls :
  fst (extendedCheck 30 None (scripted_world [12; 7; 11])) = Val (Success, 3).
Proof. reflexivity. Qed.

Example Attribute_check_14 :
  fst (Attribute_check (Strength 14) 15 0 (scripted_world [11]))
  = Val NearFail.
Proof. reflexivity. Qed.

(** ** Lists of faces *)

Lemma fold_left_max_ge (xs : list Z) (x : Z) :
  x <= fold_left Z.max xs x /\ Forall (fun y => y <= fold_left Z.max xs x) xs.
Proof.
  revert x. induction xs as [|y ys IH]; intros x; simpl.
  - split; [lia | constructor].
  - destruct (IH (Z.max x y)) as [H1 H2]. split; [lia|].
    constructor; [lia | exact H2].
Qed.

Lemma fold_left_max_in (xs : list Z) (x : Z) :
  In (fold_left Z.max xs x) (x :: xs).
Proof.
  revert x. induction xs as [|y ys IH]; intros x; simpl.
  - now left.
  - destruct (IH (Z.max x y)) as [E|Hin].
    + rewrite <- E.
      destruct (Z.max_spec x y) as [[_ Hm]|[_ Hm]]; rewrite Hm; simpl; auto.
    + simpl; auto.
Qed.

Lemma fold_left_min_le (xs : list Z) (x : Z) :
  fold_left Z.min xs x <= x /\ Forall (fun y => fold_left Z.min xs x <= y) xs.
Proof.
  revert x. induction xs as [|y ys IH]; intros x; simpl.
  - split; [lia | constructor].
  - destruct (IH (Z.min x y)) as [H1 H2]. split; [lia|].
    constructor; [lia | exact H2].
Qed.

Lemma fold_left_min_in (xs : list Z) (x : Z) :
  In (fold_left Z.min xs x) (x :: xs).
Proof.
  revert x. induction xs as [|y ys IH]; intros x; simpl.
  - now left.
  - destruct (IH (Z.min x y)) as [E|Hin].
    + rewrite <- E.
      destruct (Z.min_spec x y) as [[_ Hm]|[_ Hm]]; rewrite Hm; simpl; auto.
    + simpl; auto.
Qed.

Lemma fold_left_add_acc (xs : list Z) (a : Z) :
  fold_left Z.add xs a = a + fold_left Z.add xs 0.
Proof.
  revert a. induction xs as [|x xs IH]; intros a; simpl; [lia|].
  rewrite (IH (a + x)), (IH x). lia.
Qed.

Lemma py_sum_cons (x : Z) (xs : list Z) : py_sum (x :: xs) = x + py_sum xs.
Proof. unfold py_sum. simpl. apply fold_left_add_acc. Qed.

Lemma py_sum_app (xs ys : list Z) : py_sum (xs ++ ys) = py_sum xs + py_sum ys.
Proof.
  induction xs as [|x xs IH]; simpl; [reflexivity|].
  rewrite !py_sum_cons, IH. lia.
Qed.

Lemma py_sum_bounds (lo hi : Z) (xs : list Z) :
  Forall (fun x => lo <= x <= hi) xs ->
  lo * Z.of_nat (length xs) <= py_sum xs <= hi * Z.of_nat (length xs).
Proof.
  induction 1 as [|x xs Hx _ IH]; [cbn; lia|].
  rewrite py_sum_cons. cbn [length]. lia.
Qed.

(** ** The monad *)

Lemma set_rng_same {G} (w : world G) : set_rng (rng w) w = w.
Proof. now destruct w. Qed.

Lemma set_rng_twice {G} (g g' : G) (w : world G) :
  set_rng g (set_rng g' w) = set_rng g w.
Proof. reflexivity. Qed.

Section Mechanics.

Context {G : Type} `{RandomSource G}.

(** *** Draws *)

Lemma rs_draws_length (lo hi : Z) (n : nat) (g : G) :
  length (fst (rs_draws lo hi n g)) = n.
Proof.
  revert g. induction n as [|n IH]; intros g; simpl; [reflexivity|].
  destruct (rs_randint lo hi g) as [x g1].
  specialize (IH g1). destruct (rs_draws lo hi n g1) as [xs g2].
  simpl in *. now rewrite IH.
Qed.

Lemma rs_draws_range (lo hi : Z) (n : nat) (g : G) :
  lo <= hi -> Forall (fun x => lo <= x <= hi) (fst (rs_draws lo hi n g)).
Proof.
  intros Hle. revert g. induction n as [|n IH]; intros g; simpl.
  - constructor.
  - pose proof (rs_randint_range lo hi g Hle) as Hx.
    destruct (rs_randint lo hi g) as [x g1].
    specialize (IH g1). destruct (rs_draws lo hi n g1) as [xs g2].
    simpl in *. now constructor.
Qed.

Lemma rs_draws_S (lo hi : Z) (n : nat) (g : G) :
  rs_draws lo hi (S n) g
  = (fst (rs_randint lo hi g)
       :: fst (rs_draws lo hi n (snd (rs_randint lo hi g))),
     snd (rs_draws lo hi n (snd (rs_randint lo hi g)))).
Proof.
  simpl. destruct (rs_randint lo hi g) as [x g1]. simpl.
  now destruct (rs_draws lo hi n g1).
Qed.

Lemma rs_draws_add (lo hi : Z) (n m : nat) (g : G) :
  rs_draws lo hi (n + m) g
  = (fst (rs_draws lo hi n g)
       ++ fst (rs_draws lo hi m (snd (rs_draws lo hi n g))),
     snd (rs_draws lo hi m (snd (rs_draws lo hi n g)))).
Proof.
  revert g. induction n as [|n IH]; intros g.
  - simpl. now destruct (rs_draws lo hi m g).
  - change (S n + m)%nat with (S (n + m)).
    rewrite !rs_draws_S, IH. reflexivity.
Qed.

Lemma randint_run (lo hi : Z) (w : world G) :
  lo <= hi ->
  randint lo hi w
  = (Val (fst (rs_randint lo hi (rng w))),
     set_rng (snd (rs_randint lo hi (rng w))) w).
Proof.
  intros Hle. unfold randint.
  destruct (hi <? lo) eqn:E; [apply Z.ltb_lt in E; lia|].
  now destruct (rs_randint lo hi (rng w)).
Qed.

Lemma randint_empty_range (lo hi : Z) (w : world G) :
  hi < lo -> randint lo hi w = (Exc ValueError, w).
Proof.
  intros Hlt. unfold randint. apply Z.ltb_lt in Hlt. now rewrite Hlt.
Qed.

Lemma randints_nat_run (lo hi : Z) (n : nat) (w : world G) :
  lo <= hi ->
  randints_nat lo hi n w
  = (Val (fst (rs_draws lo hi n (rng w))),
     set_rng (snd (rs_draws lo hi n (rng w))) w).
Proof.
  intros Hle. revert w. induction n as [|n IH]; intros w.
  - simpl. unfold ret. now rewrite set_rng_same.
  - rewrite rs_draws_S. cbn [randints_nat]. unfold bind at 1.
    rewrite (randint_run _ _ _ Hle). unfold bind at 1.
    rewrite IH. reflexivity.
Qed.

(** *** The D20 roller *)

Lemma rs_draws_nonempty (lo hi : Z) (n : nat) (g : G) :
  (0 < n)%nat -> fst (rs_draws lo hi n g) <> [].
Proof.
  intros Hn E. pose proof (rs_draws_length lo hi n g) as L.
  rewrite E in L. simpl in L. lia.
Qed.

(** What one call of [d20] does to the world and what it returns. *)
Lemma d20_run (adv : Z) (w : world G) :
  let n := Z.to_nat (Z.abs adv + 1) in
  let rolls := fst (rs_draws 1 20 n (rng w)) in
  exists (r : Z) (out : list string),
    d20 adv w
    = (Val r,
       mkWorld (snd (rs_draws 1 20 n (rng w)))
               (verboseRolls w) (verboseAttributeChecks w)
               (stdout w ++ out))
    /\ In r rolls
    /\ (0 < adv -> Forall (fun x => x <= r) rolls)
    /\ (adv <= 0 -> Forall (fun x => r <= x) rolls).
Proof.
  intros n rolls.
  assert (Hne : rolls <> []) by (apply rs_draws_nonempty; subst n; lia).
  unfold d20, randints. unfold bind at 1.
  rewrite randints_nat_run by lia. fold n. fold rolls.
  destruct rolls as [|x rest] eqn:Er; [congruence|].
  destruct (0 <? adv) eqn:Eadv.
  - apply Z.ltb_lt in Eadv.
    exists (fold_left Z.max rest x).
    destruct (fold_left_max_ge rest x) as [Hx Hrest].
    pose proof (fold_left_max_in rest x) as Hin.
    destruct (verboseRolls w) eqn:Ev;
      [destruct (negb (adv =? 0)) eqn:Ez; eexists
      |exists []; rewrite app_nil_r];
      (split;
       [unfold bind, py_max, ret, get_verboseRolls, print, set_rng; simpl;
        rewrite Ev; try rewrite Ez; simpl; reflexivity
       |split; [exact Hin | split; [intros _; now constructor | lia]]]).
  - apply Z.ltb_ge in Eadv.
    exists (fold_left Z.min rest x).
    destruct (fold_left_min_le rest x) as [Hx Hrest].
    pose proof (fold_left_min_in rest x) as Hin.
    destruct (verboseRolls w) eqn:Ev;
      [destruct (negb (adv =? 0)) eqn:Ez; eexists
      |exists []; rewrite app_nil_r];
      (split;
       [unfold bind, py_min, ret, get_verboseRolls, print, set_rng; simpl;
        rewrite Ev; try rewrite Ez; simpl; reflexivity
       |split; [exact Hin | split; [lia | intros _; now constructor]]]).
Qed.

Lemma d20_face_range (adv : Z) (w : world G) :
  exists r : Z, fst (d20 adv w) = Val r /\ 1 <= r <= 20.
Proof.
  destruct (d20_run adv w) as (r & out & E & Hin & _).
  exists r. rewrite E. split; [reflexivity|].
  pose proof (rs_draws_range 1 20 (Z.to_nat (Z.abs adv + 1)) (rng w)) as R.
  rewrite Forall_forall in R. apply R; [lia | exact Hin].
Qed.

(** C2.  For every integer [adv], [d20 adv] makes exactly
    [|adv| + 1] draws, each in [1..20]: the generator it leaves is the
    one reached after that many draws.  The value it returns is one of
    the draws; it is the greatest of them when [adv > 0], the least
    when [adv < 0], and the only one when [adv = 0]. *)
Theorem d20_draws_and_reduces (adv : Z) (w : world G) :
  let n := Z.to_nat (Z.abs adv + 1) in
  let rolls := fst (rs_draws 1 20 n (rng w)) in
  Z.of_nat (length rolls) = Z.abs adv + 1
  /\ Forall (fun x => 1 <= x <= 20) rolls
  /\ rng (snd (d20 adv w)) = snd (rs_draws 1 20 n (rng w))
  /\ exists r : Z,
       fst (d20 adv w) = Val r
       /\ In r rolls
       /\ (0 < adv -> Forall (fun x => x <= r) rolls)
       /\ (adv < 0 -> Forall (fun x => r <= x) rolls)
       /\ (adv = 0 -> rolls = [r]).
Proof.
  intros n rolls.
  assert (Hlen : length rolls = n) by apply rs_draws_length.
  destruct (d20_run adv w) as (r & out & E & Hin & Hmax & Hmin).
  fold n in E, Hin, Hmax, Hmin. fold rolls in Hin, Hmax, Hmin.
  repeat split.
  - rewrite Hlen. subst n. lia.
  - apply rs_draws_range. lia.
  - now rewrite E.
  - exists r. rewrite E. repeat split; auto.
    + intros Hneg. apply Hmin. lia.
    + intros ->. change n with 1%nat in Hlen.
      destruct rolls as [|x [|y rest]]; try discriminate.
      destruct Hin as [->|[]]. reflexivity.
Qed.

(** *** Skill checks *)

(** C1.  [check threshold adv] rolls [d20 adv] once and classifies the
    reduced roll: the outcome is [CriticalFail] exactly when the roll is
    1 and [CriticalSuccess] exactly when it is 20, whatever the
    threshold; for a roll strictly between 1 and 20 it is [Fail] when
    the roll is below the threshold, [Success] when it is above, and
    [NearFail] when they are equal. *)
Theorem check_classifies (threshold adv : Z) (w : world G) :
  exists (roll : Z) (o : Outcome),
    fst (d20 adv w) = Val roll
    /\ 1 <= roll <= 20
    /\ check threshold adv w = (Val o, snd (d20 adv w))
    /\ (o = CriticalFail <-> roll = 1)
    /\ (o = CriticalSuccess <-> roll = 20)
    /\ (o = Fail <-> 1 < roll < 20 /\ roll < threshold)
    /\ (o = Success <-> 1 < roll < 20 /\ threshold < roll)
    /\ (o = NearFail <-> 1 < roll < 20 /\ roll = threshold).
Proof.
  destruct (d20_face_range adv w) as (roll & E & Hr).
  exists roll. unfold check, bind.
  destruct (d20 adv w) as [r w'] eqn:Ed. simpl in E. subst r. simpl.
  destruct (roll =? 1) eqn:E1;
    [|destruct (roll =? 20) eqn:E20;
      [|destruct (roll <? threshold) eqn:Elt;
        [|destruct (threshold <? roll) eqn:Egt]]];
    rewrite ?Z.eqb_eq, ?Z.eqb_neq, ?Z.ltb_lt, ?Z.ltb_ge in *;
    eexists; (split; [reflexivity|]); (split; [exact Hr|]);
    (split; [reflexivity|]);
    repeat split; intros; try discriminate; try lia.
Qed.

(** *** Extended skill checks *)

Lemma d20_sum_0 (g : G) : d20_sum 0 g = 0.
Proof. reflexivity. Qed.

Lemma d20_sum_S (k : nat) (g : G) :
  d20_sum (S k) g
  = fst (rs_randint 1 20 g) + d20_sum k (snd (rs_randint 1 20 g)).
Proof.
  unfold d20_sum, d20_faces. rewrite rs_draws_S. cbn [fst].
  apply py_sum_cons.
Qed.

Lemma d20_sum_add (k j : nat) (g : G) :
  d20_sum (k + j) g
  = d20_sum k g + d20_sum j (snd (rs_draws 1 20 k g)).
Proof.
  unfold d20_sum, d20_faces. rewrite rs_draws_add. cbn [fst].
  apply py_sum_app.
Qed.

Lemma d20_sum_lower (k : nat) (g : G) : Z.of_nat k <= d20_sum k g.
Proof.
  unfold d20_sum, d20_faces.
  pose proof (py_sum_bounds 1 20 _ (rs_draws_range 1 20 k g ltac:(lia))) as B.
  rewrite rs_draws_length in B. lia.
Qed.

Lemma d20_sum_mono (k j : nat) (g : G) :
  (k <= j)%nat -> d20_sum k g <= d20_sum j g.
Proof.
  intros Hle. replace j with (k + (j - k))%nat by lia.
  rewrite d20_sum_add.
  pose proof (d20_sum_lower (j - k) (snd (rs_draws 1 20 k g))). lia.
Qed.

(** A plain roll is one draw. *)
Lemma d20_plain_run (w : world G) :
  exists out : list string,
    d20 0 w
    = (Val (fst (rs_randint 1 20 (rng w))),
       mkWorld (snd (rs_randint 1 20 (rng w)))
               (verboseRolls w) (verboseAttributeChecks w)
               (stdout w ++ out)).
Proof.
  destruct (d20_run 0 w) as (r & out & E & Hin & _).
  change (Z.to_nat (Z.abs 0 + 1)) with 1%nat in *.
  rewrite rs_draws_S in E, Hin. cbn [fst snd rs_draws] in E, Hin.
  destruct Hin as [<-|[]]. now exists out.
Qed.

Lemma extendedCheck_loop_unfold (fuel : nat) (threshold : Z)
    (maxRolls : option Z) (accumulator rollCount : Z) :
  extendedCheck_loop fuel threshold maxRolls accumulator rollCount
  = if accumulator <? threshold then
      match budget_spent maxRolls rollCount with
      | Some n => ret (Fail, n)
      | None =>
          match fuel with
          | O => out_of_fuel
          | S fuel' =>
              roll <- d20 0 ;;
              extendedCheck_loop fuel' threshold maxRolls
                                 (accumulator + roll) (rollCount + 1)
          end
      end
    else ret (Success, rollCount).
Proof. destruct fuel; reflexivity. Qed.

(** More fuel does not change a run that ended. *)
Lemma extendedCheck_loop_fuel_mono (fuel fuel' : nat) (threshold : Z)
    (maxRolls : option Z) (accumulator rollCount : Z) (w : world G) :
  (fuel <= fuel')%nat ->
  fst (extendedCheck_loop fuel threshold maxRolls accumulator rollCount w)
    <> OutOfFuel ->
  extendedCheck_loop fuel' threshold maxRolls accumulator rollCount w
  = extendedCheck_loop fuel threshold maxRolls accumulator rollCount w.
Proof.
  revert fuel' accumulator rollCount w.
  induction fuel as [|fuel IH]; intros fuel' acc cnt w Hle Hend;
    rewrite extendedCheck_loop_unfold in Hend;
    rewrite (extendedCheck_loop_unfold fuel').
  - rewrite (extendedCheck_loop_unfold 0).
    destruct (acc <? threshold); [|reflexivity].
    destruct (budget_spent maxRolls cnt); [reflexivity|].
    now elim Hend.
  - rewrite (extendedCheck_loop_unfold (S fuel)).
    destruct (acc <? threshold); [|reflexivity].
    destruct (budget_spent maxRolls cnt); [reflexivity|].
    destruct fuel' as [|fuel']; [lia|].
    unfold bind in Hend |- *.
    destruct (d20 0 w) as [[roll|e|] w1]; try reflexivity.
    apply IH; [lia | exact Hend].
Qed.

(** The run of the loop, given at least [threshold - accumulator]
    iterations: it ends after some number [k] of rolls.  Before each of
    them the accumulator was short of the threshold and the budget was
    not spent; at the end either the accumulator has reached the
    threshold, or it has not and the budget is spent. *)
Lemma extendedCheck_loop_run (fuel : nat) (threshold : Z)
    (maxRolls : option Z) (acc cnt : Z) (w : world G) :
  threshold - acc <= Z.of_nat fuel ->
  exists (k : nat) (o : Outcome) (c : Z) (w' : world G),
    extendedCheck_loop fuel threshold maxRolls acc cnt w = (Val (o, c), w')
    /\ rng w' = snd (rs_draws 1 20 k (rng w))
    /\ verboseRolls w' = verboseRolls w
    /\ verboseAttributeChecks w' = verboseAttributeChecks w
    /\ (forall j : nat, (j < k)%nat ->
          acc + d20_sum j (rng w) < threshold
          /\ budget_spent maxRolls (cnt + Z.of_nat j) = None)
    /\ ((o = Success /\ c = cnt + Z.of_nat k
         /\ threshold <= acc + d20_sum k (rng w))
        \/ (o = Fail /\ acc + d20_sum k (rng w) < threshold
            /\ budget_spent maxRolls (cnt + Z.of_nat k) = Some c)).
Proof.
  revert acc cnt w.
  induction fuel as [|fuel IH]; intros acc cnt w Hfuel;
    rewrite extendedCheck_loop_unfold;
    (destruct (acc <? threshold) eqn:Eacc;
     [apply Z.ltb_lt in Eacc
     |apply Z.ltb_ge in Eacc;
      exists 0%nat, Success, cnt, w; rewrite d20_sum_0, !Z.add_0_r;
      repeat split; try lia; left; repeat split; lia]);
    (destruct (budget_spent maxRolls cnt) as [n|] eqn:Eb;
     [exists 0%nat, Fail, n, w; rewrite d20_sum_0, !Z.add_0_r;
      repeat split; try lia; right; repeat split; try exact Eb; lia
     |]).
  - lia.
  - destruct (d20_plain_run w) as (out & Ed).
    set (x := fst (rs_randint 1 20 (rng w))) in *.
    set (g1 := snd (rs_randint 1 20 (rng w))) in *.
    pose proof (rs_randint_range 1 20 (rng w) ltac:(lia)) as Hx.
    fold x in Hx.
    unfold bind. rewrite Ed.
    match goal with
    | |- context [extendedCheck_loop fuel _ _ _ _ ?w1] =>
        destruct (IH (acc + x) (cnt + 1) w1 ltac:(lia))
          as (k & o & c & w' & Erun & Hrng & Hv & Ha & Hbefore & Hend)
    end.
    cbn [rng verboseRolls verboseAttributeChecks] in Hrng, Hv, Ha, Hbefore, Hend.
    exists (S k), o, c, w'.
    split; [exact Erun|]. split; [now rewrite rs_draws_S|].
    split; [exact Hv|]. split; [exact Ha|].
    split.
    + intros [|j] Hj.
      * rewrite d20_sum_0, !Z.add_0_r. split; [lia | exact Eb].
      * destruct (Hbefore j ltac:(lia)) as [Hs Hbud].
        rewrite d20_sum_S. fold x g1.
        replace (cnt + Z.of_nat (S j)) with (cnt + 1 + Z.of_nat j) by lia.
        split; [lia | exact Hbud].
    + rewrite d20_sum_S. fold x g1.
      replace (cnt + Z.of_nat (S k)) with (cnt + 1 + Z.of_nat k) by lia.
      destruct Hend as [(Ho & Hc & Hs)|(Ho & Hs & Hbud)];
        [left | right]; repeat split; auto; lia.
Qed.

Lemma budget_spent_Some (n cnt c : Z) :
  budget_spent (Some n) cnt = Some c <-> n <> 0 /\ n <= cnt /\ c = n.
Proof.
  unfold budget_spent, truthy.
  destruct (n =? 0) eqn:E0; destruct (n <=? cnt) eqn:El; simpl;
    rewrite ?Z.eqb_eq, ?Z.eqb_neq, ?Z.leb_le, ?Z.leb_gt in *;
    split; try discriminate; try lia.
  - intros [= <-]. lia.
  - intros (_ & _ & ->). reflexivity.
Qed.

Lemma budget_spent_None (n cnt : Z) :
  budget_spent (Some n) cnt = None <-> n = 0 \/ cnt < n.
Proof.
  unfold budget_spent, truthy.
  destruct (n =? 0) eqn:E0; destruct (n <=? cnt) eqn:El; simpl;
    rewrite ?Z.eqb_eq, ?Z.eqb_neq, ?Z.leb_le, ?Z.leb_gt in *;
    split; try discriminate; try lia; reflexivity.
Qed.

(** [extendedCheck] always returns: the iteration bound of the model
    is never hit and no exception is raised. *)
Lemma extendedCheck_total (threshold : Z) (maxRolls : option Z)
    (w : world G) :
  exists (o : Outcome) (c : Z) (w' : world G),
    extendedCheck threshold maxRolls w = (Val (o, c), w').
Proof.
  destruct (extendedCheck_loop_run (Z.to_nat threshold) threshold maxRolls
              0 0 w ltac:(lia)) as (k & o & c & w' & E & _).
  now exists o, c, w'.
Qed.

(** Any larger iteration bound gives the same run. *)
Lemma extendedCheck_loop_fuel_irrelevant (fuel : nat) (threshold : Z)
    (maxRolls : option Z) (w : world G) :
  (Z.to_nat threshold <= fuel)%nat ->
  extendedCheck_loop fuel threshold maxRolls 0 0 w
  = extendedCheck threshold maxRolls w.
Proof.
  intros Hle. unfold extendedCheck.
  apply extendedCheck_loop_fuel_mono; [exact Hle|].
  destruct (extendedCheck_total threshold maxRolls w) as (o & c & w' & E).
  unfold extendedCheck in E. rewrite E. discriminate.
Qed.

(** C4.  With a positive threshold and no roll budget, the loop ends
    under every iteration bound of at least [threshold], always with
    the same result: [Success] and a roll count [c] such that the first
    [c] draws sum to at least the threshold while the first [c - 1]
    draws sum to less.  The count is at most [threshold], because every
    draw adds at least 1. *)
Theorem extendedCheck_unlimited (threshold : Z) (w : world G) :
  0 < threshold ->
  exists (c : Z) (w' : world G),
    (forall fuel : nat,
        (Z.to_nat threshold <= fuel)%nat ->
        extendedCheck_loop fuel threshold None 0 0 w
        = (Val (Success, c), w'))
    /\ extendedCheck threshold None w = (Val (Success, c), w')
    /\ 1 <= c <= threshold
    /\ threshold <= d20_sum (Z.to_nat c) (rng w)
    /\ d20_sum (Z.to_nat (c - 1)) (rng w) < threshold
    /\ rng w' = snd (rs_draws 1 20 (Z.to_nat c) (rng w)).
Proof.
  intros Hpos.
  destruct (extendedCheck_loop_run (Z.to_nat threshold) threshold None
              0 0 w ltac:(lia))
    as (k & o & c & w' & E & Hrng & _ & _ & Hbefore & Hend).
  destruct Hend as [(-> & -> & Hs)|(_ & _ & Hbud)]; [|discriminate].
  rewrite Z.add_0_l in *.
  assert (Hk : (0 < k)%nat).
  { destruct k; [rewrite d20_sum_0 in Hs; lia | lia]. }
  destruct (Hbefore (k - 1)%nat ltac:(lia)) as [Hprev _].
  rewrite Z.add_0_l in Hprev.
  pose proof (d20_sum_lower (k - 1) (rng w)) as Hlow.
  exists (Z.of_nat k), w'.
  replace (Z.to_nat (Z.of_nat k - 1)) with (k - 1)%nat by lia.
  rewrite Nat2Z.id.
  repeat split; auto; try lia.
  intros fuel Hfuel.
  now rewrite extendedCheck_loop_fuel_irrelevant.
Qed.

(** C3.  With a positive threshold and a positive roll budget [n],
    [extendedCheck] returns a count of at most [n], which is also the
    number of draws it made.  The outcome is [Fail] exactly when the
    first [n] draws sum to less than the threshold, and then the count
    is [n]; otherwise it is [Success] and the count is the first at
    which the sum of the draws reaches the threshold. *)
Theorem extendedCheck_budgeted (threshold n : Z) (w : world G) :
  0 < threshold ->
  0 < n ->
  exists (o : Outcome) (c : Z) (w' : world G),
    extendedCheck threshold (Some n) w = (Val (o, c), w')
    /\ 1 <= c <= n
    /\ rng w' = snd (rs_draws 1 20 (Z.to_nat c) (rng w))
    /\ (o = Fail <-> d20_sum (Z.to_nat n) (rng w) < threshold)
    /\ (o = Fail -> c = n)
    /\ (o <> Fail ->
        o = Success
        /\ threshold <= d20_sum (Z.to_nat c) (rng w)
        /\ d20_sum (Z.to_nat (c - 1)) (rng w) < threshold).
Proof.
  intros Hpos Hn.
  destruct (extendedCheck_loop_run (Z.to_nat threshold) threshold (Some n)
              0 0 w ltac:(lia))
    as (k & o & c & w' & E & Hrng & _ & _ & Hbefore & Hend).
  exists o, c, w'. split; [exact E|].
  rewrite !Z.add_0_l in Hend.
  assert (Hprev : (0 < k)%nat ->
                  d20_sum (k - 1) (rng w) < threshold /\ Z.of_nat k <= n).
  { intros Hk. destruct (Hbefore (k - 1)%nat ltac:(lia)) as [Hs Hb].
    rewrite Z.add_0_l in Hs, Hb. apply budget_spent_None in Hb.
    split; [exact Hs | lia]. }
  destruct Hend as [(-> & -> & Hs)|(-> & Hs & Hbud)].
  - assert (Hk : (0 < k)%nat).
    { destruct k; [rewrite d20_sum_0 in Hs; lia | lia]. }
    destruct (Hprev Hk) as [Hlt Hkn].
    pose proof (d20_sum_mono k (Z.to_nat n) (rng w) ltac:(lia)) as Hmono.
    replace (Z.to_nat (Z.of_nat k - 1)) with (k - 1)%nat by lia.
    rewrite Nat2Z.id.
    repeat split; auto; try lia; try discriminate.
  - apply budget_spent_Some in Hbud. destruct Hbud as (_ & Hnk & ->).
    assert (Hk : (0 < k)%nat) by lia.
    destruct (Hprev Hk) as [_ Hkn].
    assert (Ek : Z.to_nat n = k) by lia.
    rewrite Ek.
    repeat split; auto; try lia; try congruence.
Qed.

(** C9.  With a threshold of zero or less, whatever the budget and
    whatever the iteration bound, the loop body never runs:
    [extendedCheck] returns [(Success, 0)] and leaves the world, and so
    the random source, as it found it. *)
Theorem extendedCheck_nonpositive (threshold : Z) (maxRolls : option Z)
    (w : world G) :
  threshold <= 0 ->
  extendedCheck threshold maxRolls w = (Val (Success, 0), w)
  /\ forall fuel : nat,
       extendedCheck_loop fuel threshold maxRolls 0 0 w
       = (Val (Success, 0), w).
Proof.
  intros Hle.
  assert (E : (0 <? threshold) = false) by (apply Z.ltb_ge; exact Hle).
  split; [unfold extendedCheck | intros fuel];
    rewrite extendedCheck_loop_unfold, E; reflexivity.
Qed.

(** C7, as the code has it.  A threshold of zero or less is not
    refused: [extendedCheck] raises nothing and reports [(Success, 0)]
    to its caller. *)
Theorem extendedCheck_nonpositive_not_refused (threshold : Z)
    (maxRolls : option Z) (w : world G) :
  threshold <= 0 ->
  fst (extendedCheck threshold maxRolls w) = Val (Success, 0)
  /\ ~ raised (fst (extendedCheck threshold maxRolls w)).
Proof.
  intros Hle.
  assert (E : extendedCheck threshold maxRolls w = (Val (Success, 0), w)).
  { unfold extendedCheck. rewrite extendedCheck_loop_unfold.
    replace (0 <? threshold) with false; [reflexivity|].
    symmetry. apply Z.ltb_ge. exact Hle. }
  rewrite E. split; [reflexivity|]. intros [e He]. discriminate He.
Qed.

(** *** The D6 roller *)

Lemma randints_nonpositive (lo hi n : Z) (w : world G) :
  n <= 0 -> randints lo hi n w = (Val [], w).
Proof.
  intros Hn. unfold randints.
  replace (Z.to_nat n) with 0%nat by lia. reflexivity.
Qed.

(** What [d6] does when [range(count)] is empty. *)
Lemma d6_nonpositive_run (count : Z) (critical : bool) (w : world G) :
  count <= 0 ->
  let v := if critical then 6 * count else 0 in
  d6 count critical w
  = (Val v,
     if verboseRolls w
     then snd (print (_d6label count critical ++ ": " ++ str_int v)%string w)
     else w).
Proof.
  intros Hc v. unfold d6, bind at 1.
  rewrite randints_nonpositive by exact Hc.
  assert (Ev : (if critical then py_sum [] + count * 6 else py_sum []) = v).
  { subst v. unfold py_sum. cbn [fold_left]. destruct critical; lia. }
  rewrite Ev.
  assert (E1 : (1 <? count) = false) by (apply Z.ltb_ge; lia).
  rewrite E1. unfold bind, get_verboseRolls, print, ret.
  destruct (verboseRolls w) eqn:Evr; cbn [snd]; rewrite ?Evr; reflexivity.
Qed.

(** C10.  For [count <= 0], [d6] raises nothing and draws nothing: the
    generator is left as it was, and the value returned is 0 for a
    regular roll and [6 * count], which is zero or negative, for a
    critical one. *)
Theorem d6_nonpositive (count : Z) (critical : bool) (w : world G) :
  count <= 0 ->
  fst (d6 count critical w) = Val (if critical then 6 * count else 0)
  /\ (if critical then 6 * count else 0) <= 0
  /\ rng (snd (d6 count critical w)) = rng w
  /\ rs_draws 1 6 (Z.to_nat count) (rng w) = ([], rng w).
Proof.
  intros Hc. rewrite (d6_nonpositive_run count critical w Hc).
  repeat split.
  - destruct critical; lia.
  - now destruct (verboseRolls w).
  - now replace (Z.to_nat count) with 0%nat by lia.
Qed.

(** C6, as the code has it.  A count of zero or less is not refused:
    [d6] raises nothing and returns an integer to its caller, 0 for a
    regular roll and [6 * count] for a critical one. *)
Theorem d6_nonpositive_not_refused (count : Z) (critical : bool)
    (w : world G) :
  count <= 0 ->
  ~ raised (fst (d6 count critical w))
  /\ exists v : Z,
       fst (d6 count critical w) = Val v
       /\ v = if critical then 6 * count else 0.
Proof.
  intros Hc. rewrite (d6_nonpositive_run count critical w Hc). cbn [fst].
  split; [intros [e He]; discriminate He|].
  eexists; split; reflexivity.
Qed.

(** *** Results do not depend on tracing *)

Lemma oblivious_ret {A} (a : A) : oblivious (ret (G:=G) a).
Proof. intros w1 w2 E. now split. Qed.

Lemma oblivious_raise {A} (e : exn) : oblivious (raise (G:=G) (A:=A) e).
Proof. intros w1 w2 E. now split. Qed.

Lemma oblivious_out_of_fuel {A} : oblivious (out_of_fuel (G:=G) (A:=A)).
Proof. intros w1 w2 E. now split. Qed.

Lemma oblivious_bind {A B} (m : M G A) (f : A -> M G B) :
  oblivious m -> (forall a, oblivious (f a)) -> oblivious (bind m f).
Proof.
  intros Hm Hf w1 w2 E. unfold bind.
  destruct (Hm w1 w2 E) as [Er Eg].
  destruct (m w1) as [r1 w1'], (m w2) as [r2 w2']. simpl in Er, Eg.
  subst r2. destruct r1 as [a|e|]; [now apply Hf | now split | now split].
Qed.

Lemma oblivious_randint (lo hi : Z) : oblivious (randint lo hi).
Proof.
  intros w1 w2 E. unfold randint. rewrite E.
  destruct (hi <? lo); [now split|].
  now destruct (rs_randint lo hi (rng w2)).
Qed.

Lemma oblivious_randints (lo hi n : Z) : oblivious (randints lo hi n).
Proof.
  unfold randints.
  induction (Z.to_nat n) as [|k IH]; cbn [randints_nat].
  - apply oblivious_ret.
  - apply oblivious_bind; [apply oblivious_randint | intros x].
    apply oblivious_bind; [exact IH | intros xs]. apply oblivious_ret.
Qed.

Lemma oblivious_py_max (xs : list Z) : oblivious (py_max (G:=G) xs).
Proof. destruct xs; [apply oblivious_raise | apply oblivious_ret]. Qed.

Lemma oblivious_py_min (xs : list Z) : oblivious (py_min (G:=G) xs).
Proof. destruct xs; [apply oblivious_raise | apply oblivious_ret]. Qed.

Lemma silent_ret : silent (ret (G:=G) tt).
Proof. intros w. now split. Qed.

Lemma silent_print (line : string) : silent (print (G:=G) line).
Proof. intros w. now split. Qed.

Lemma oblivious_after_silent {A} (p : M G unit) (k : M G A) :
  silent p -> oblivious k -> oblivious (p ;; k).
Proof.
  intros Hp Hk w1 w2 E. unfold bind.
  destruct (Hp w1) as [R1 S1], (Hp w2) as [R2 S2].
  destruct (p w1) as [r1 w1'], (p w2) as [r2 w2'].
  simpl in R1, S1, R2, S2. subst r1 r2. apply Hk. congruence.
Qed.

(** Reading a verbosity flag to decide what to print has no bearing on
    what follows. *)
Lemma oblivious_after_verboseRolls {A} (p : bool -> M G unit)
    (k : M G A) :
  (forall b, silent (p b)) -> oblivious k ->
  oblivious (v <- get_verboseRolls ;; p v ;; k).
Proof.
  intros Hp Hk w1 w2 E. unfold bind, get_verboseRolls.
  destruct (Hp (verboseRolls w1) w1) as [R1 S1].
  destruct (Hp (verboseRolls w2) w2) as [R2 S2].
  destruct (p (verboseRolls w1) w1) as [r1 w1'].
  destruct (p (verboseRolls w2) w2) as [r2 w2'].
  simpl in R1, S1, R2, S2. subst r1 r2. apply Hk. congruence.
Qed.

Lemma oblivious_after_verboseAttributeChecks {A} (p : bool -> M G unit)
    (k : M G A) :
  (forall b, silent (p b)) -> oblivious k ->
  oblivious (v <- get_verboseAttributeChecks ;; p v ;; k).
Proof.
  intros Hp Hk w1 w2 E. unfold bind, get_verboseAttributeChecks.
  destruct (Hp (verboseAttributeChecks w1) w1) as [R1 S1].
  destruct (Hp (verboseAttributeChecks w2) w2) as [R2 S2].
  destruct (p (verboseAttributeChecks w1) w1) as [r1 w1'].
  destruct (p (verboseAttributeChecks w2) w2) as [r2 w2'].
  simpl in R1, S1, R2, S2. subst r1 r2. apply Hk. congruence.
Qed.

Lemma oblivious_d20 (adv : Z) : oblivious (d20 adv).
Proof.
  unfold d20.
  apply oblivious_bind; [apply oblivious_randints | intros rolls].
  apply oblivious_bind;
    [destruct (0 <? adv); [apply oblivious_py_max | apply oblivious_py_min]
    |intros result].
  apply oblivious_after_verboseRolls; [|apply oblivious_ret].
  intros [|]; [destruct (negb (adv =? 0))|];
    auto using silent_print, silent_ret.
Qed.

Lemma oblivious_d6 (count : Z) (critical : bool) :
  oblivious (d6 count critical).
Proof.
  unfold d6.
  apply oblivious_bind; [apply oblivious_randints | intros rolls].
  cbv zeta.
  apply oblivious_after_verboseRolls; [|apply oblivious_ret].
  intros [|]; [destruct (1 <? count)|];
    auto using silent_print, silent_ret.
Qed.

Lemma oblivious_check (threshold adv : Z) : oblivious (check threshold adv).
Proof.
  unfold check.
  apply oblivious_bind; [apply oblivious_d20 | intros roll].
  destruct (roll =? 1), (roll =? 20), (roll <? threshold),
    (threshold <? roll); apply oblivious_ret.
Qed.

Lemma oblivious_extendedCheck_loop (fuel : nat) (threshold : Z)
    (maxRolls : option Z) (acc cnt : Z) :
  oblivious (extendedCheck_loop fuel threshold maxRolls acc cnt).
Proof.
  revert acc cnt. induction fuel as [|fuel IH]; intros acc cnt;
    rewrite extendedCheck_loop_unfold;
    (destruct (acc <? threshold); [|apply oblivious_ret]);
    (destruct (budget_spent maxRolls cnt); [apply oblivious_ret|]).
  - apply oblivious_out_of_fuel.
  - apply oblivious_bind; [apply oblivious_d20 | intros roll; apply IH].
Qed.

Lemma oblivious_extendedCheck (threshold : Z) (maxRolls : option Z) :
  oblivious (extendedCheck threshold maxRolls).
Proof. apply oblivious_extendedCheck_loop. Qed.

(** *** Attributes *)

(** The world in which an attribute check hands over to the plain
    one: the modifier line is printed when
    [verboseAttributeChecks] is on. *)
Lemma Attribute_check_run (self : Attribute) (threshold adv : Z)
    (w : world G) :
  Attribute_check self threshold adv w
  = check (threshold - modifier self) adv
      (if verboseAttributeChecks w
       then snd (print (label self ++ " modifier: "
                          ++ str_int (modifier self))%string w)
       else w).
Proof.
  unfold Attribute_check, bind, get_verboseAttributeChecks.
  now destruct (verboseAttributeChecks w).
Qed.

Lemma Attribute_extendedCheck_run (self : Attribute) (threshold : Z)
    (maxRolls : option Z) (w : world G) :
  Attribute_extendedCheck self threshold maxRolls w
  = extendedCheck (threshold - modifier self) maxRolls
      (if verboseAttributeChecks w
       then snd (print (label self ++ " modifier: "
                          ++ str_int (modifier self))%string w)
       else w).
Proof.
  unfold Attribute_extendedCheck, bind, get_verboseAttributeChecks.
  now destruct (verboseAttributeChecks w).
Qed.

(** C5.  From the same world, [Attribute.check] returns the outcome of
    the plain [check] called with [threshold - (score - 10)] and leaves
    the same generator, and [Attribute.extendedCheck] returns the pair
    of the plain [extendedCheck] called with that threshold and leaves
    the same generator.  With [verboseAttributeChecks] off the two
    calls coincide altogether. *)
Theorem Attribute_checks_delegate (self : Attribute) (threshold adv : Z)
    (maxRolls : option Z) (w : world G) :
  let threshold' := threshold - (score self - 10) in
  (fst (Attribute_check self threshold adv w)
   = fst (check threshold' adv w)
   /\ rng (snd (Attribute_check self threshold adv w))
      = rng (snd (check threshold' adv w)))
  /\ (fst (Attribute_extendedCheck self threshold maxRolls w)
      = fst (extendedCheck threshold' maxRolls w)
      /\ rng (snd (Attribute_extendedCheck self threshold maxRolls w))
         = rng (snd (extendedCheck threshold' maxRolls w)))
  /\ (verboseAttributeChecks w = false ->
      Attribute_check self threshold adv w = check threshold' adv w
      /\ Attribute_extendedCheck self threshold maxRolls w
         = extendedCheck threshold' maxRolls w).
Proof.
  intros threshold'.
  rewrite Attribute_check_run, Attribute_extendedCheck_run.
  unfold modifier. fold threshold'.
  split; [|split].
  - apply oblivious_check. now destruct (verboseAttributeChecks w).
  - apply oblivious_extendedCheck. now destruct (verboseAttributeChecks w).
  - intros ->. now split.
Qed.

(** *** The public functions always return *)

Lemma returns_ret {A} (a : A) : returns (ret (G:=G) a).
Proof. intros w. now exists a, w. Qed.

Lemma returns_bind {A B} (m : M G A) (f : A -> M G B) :
  returns m -> (forall a, returns (f a)) -> returns (bind m f).
Proof.
  intros Hm Hf w. unfold bind.
  destruct (Hm w) as (a & w' & ->). apply Hf.
Qed.

Lemma returns_d20 (adv : Z) : returns (d20 adv).
Proof.
  intros w. destruct (d20_run adv w) as (r & out & E & _).
  rewrite E. eauto.
Qed.

Lemma returns_d6 (count : Z) (critical : bool) :
  returns (d6 count critical).
Proof.
  intros w. unfold d6, randints. unfold bind at 1.
  rewrite randints_nat_run by lia. cbv zeta.
  unfold bind, get_verboseRolls, print, ret. cbn [verboseRolls set_rng].
  destruct (verboseRolls w); [destruct (1 <? count)|]; eauto.
Qed.

Lemma returns_check (threshold adv : Z) : returns (check threshold adv).
Proof.
  unfold check. apply returns_bind; [apply returns_d20 | intros roll].
  destruct (roll =? 1), (roll =? 20), (roll <? threshold),
    (threshold <? roll); apply returns_ret.
Qed.

Lemma returns_extendedCheck (threshold : Z) (maxRolls : option Z) :
  returns (extendedCheck threshold maxRolls).
Proof.
  intros w.
  destruct (extendedCheck_total threshold maxRolls w) as (o & c & w' & E).
  rewrite E. eauto.
Qed.

Lemma returns_run_call (c : call) : returns (run_call c).
Proof.
  destruct c; cbn [run_call];
    (apply returns_bind; [|intros ?; apply returns_ret]);
    auto using returns_d20, returns_d6, returns_check,
      returns_extendedCheck.
Qed.

Lemma run_calls_returns (cs : list call) (w : world G) :
  exists (rs : list retval) (w' : world G),
    run_calls cs w = (Val rs, w') /\ length rs = length cs.
Proof.
  revert w. induction cs as [|c cs IH]; intros w; cbn [run_calls].
  - exists [], w. now split.
  - unfold bind at 1.
    destruct (returns_run_call c w) as (r & w1 & ->).
    unfold bind at 1.
    destruct (IH w1) as (rs & w' & -> & Hlen).
    exists (r :: rs), w'. split; [reflexivity|]. cbn [length]. now rewrite Hlen.
Qed.

Lemma oblivious_run_calls (cs : list call) : oblivious (run_calls cs).
Proof.
  induction cs as [|c cs IH]; cbn [run_calls]; [apply oblivious_ret|].
  apply oblivious_bind.
  - destruct c; cbn [run_call];
      (apply oblivious_bind; [|intros ?; apply oblivious_ret]);
      auto using oblivious_d20, oblivious_d6, oblivious_check,
        oblivious_extendedCheck.
  - intros r. apply oblivious_bind; [exact IH|].
    intros rs. apply oblivious_ret.
Qed.

(** *** What is printed *)

Lemma agree_refl (w : world G) : agree w w.
Proof. now split. Qed.

Lemma traced_ret {A} (a : A) : traced (ret (G:=G) a).
Proof.
  intros w1 w2 Ha. repeat split; try apply Ha.
  exists []. cbn. now rewrite !app_nil_r.
Qed.

Lemma traced_raise {A} (e : exn) : traced (raise (G:=G) (A:=A) e).
Proof.
  intros w1 w2 Ha. repeat split; try apply Ha.
  exists []. cbn. now rewrite !app_nil_r.
Qed.

Lemma traced_out_of_fuel {A} : traced (out_of_fuel (G:=G) (A:=A)).
Proof.
  intros w1 w2 Ha. repeat split; try apply Ha.
  exists []. cbn. now rewrite !app_nil_r.
Qed.

Lemma traced_print (line : string) : traced (print (G:=G) line).
Proof.
  intros w1 w2 Ha. repeat split; try apply Ha. now exists [line].
Qed.

Lemma traced_get_verboseRolls : traced (get_verboseRolls (G:=G)).
Proof.
  intros w1 w2 Ha. unfold get_verboseRolls. cbn [fst snd].
  split; [f_equal; apply Ha|]. split; [exact Ha|].
  exists []. now rewrite !app_nil_r.
Qed.

Lemma traced_randint (lo hi : Z) : traced (randint lo hi).
Proof.
  intros w1 w2 [Eg Ev]. unfold randint. rewrite Eg.
  destruct (hi <? lo).
  - repeat split; auto. exists []. cbn. now rewrite !app_nil_r.
  - destruct (rs_randint lo hi (rng w2)) as [x g'].
    repeat split; auto. exists []. cbn. now rewrite !app_nil_r.
Qed.

Lemma traced_bind {A B} (m : M G A) (f : A -> M G B) :
  traced m -> (forall a, traced (f a)) -> traced (bind m f).
Proof.
  intros Hm Hf w1 w2 Ha. unfold bind.
  destruct (Hm w1 w2 Ha) as (Er & Ha' & out & O1 & O2).
  destruct (m w1) as [r1 w1'], (m w2) as [r2 w2'].
  cbn [fst snd] in Er, Ha', O1, O2. subst r2.
  destruct r1 as [a|e|].
  - destruct (Hf a w1' w2' Ha') as (Er & Ha'' & out' & O1' & O2').
    split; [exact Er|]. split; [exact Ha''|].
    exists (out ++ out'). rewrite O1', O2', O1, O2, !app_assoc. now split.
  - repeat split; try apply Ha'. now exists out.
  - repeat split; try apply Ha'. now exists out.
Qed.

Create HintDb traced discriminated.
Hint Resolve traced_ret traced_raise traced_out_of_fuel traced_print
  traced_get_verboseRolls traced_randint : traced.

(** Walks down a computation built from binds, conditionals and the
    primitives above. *)
Ltac traced_walk :=
  repeat first
    [ solve [auto with traced]
    | apply traced_bind; [|intros ?]
    | match goal with
      | |- traced (if ?b then _ else _) => destruct b
      | |- traced (match ?x with _ => _ end) => destruct x
      end ].

Lemma traced_randints (lo hi n : Z) : traced (randints lo hi n).
Proof.
  unfold randints.
  induction (Z.to_nat n) as [|k IH]; cbn [randints_nat]; traced_walk.
Qed.

Lemma traced_d20 (adv : Z) : traced (d20 adv).
Proof.
  unfold d20, py_max, py_min.
  apply traced_bind; [apply traced_randints | intros rolls].
  traced_walk.
Qed.

Lemma traced_d6 (count : Z) (critical : bool) : traced (d6 count critical).
Proof.
  unfold d6.
  apply traced_bind; [apply traced_randints | intros rolls].
  cbv zeta. traced_walk.
Qed.

Lemma traced_check (threshold adv : Z) : traced (check threshold adv).
Proof.
  unfold check. apply traced_bind; [apply traced_d20 | intros roll].
  traced_walk.
Qed.

Lemma traced_extendedCheck_loop (fuel : nat) (threshold : Z)
    (maxRolls : option Z) (acc cnt : Z) :
  traced (extendedCheck_loop fuel threshold maxRolls acc cnt).
Proof.
  revert acc cnt. induction fuel as [|fuel IH]; intros acc cnt;
    rewrite extendedCheck_loop_unfold;
    (destruct (acc <? threshold); [|apply traced_ret]);
    (destruct (budget_spent maxRolls cnt); [apply traced_ret|]).
  - apply traced_out_of_fuel.
  - apply traced_bind; [apply traced_d20 | intros roll; apply IH].
Qed.

Lemma traced_extendedCheck (threshold : Z) (maxRolls : option Z) :
  traced (extendedCheck threshold maxRolls).
Proof. apply traced_extendedCheck_loop. Qed.

Lemma traced_run_calls (cs : list call) : traced (run_calls cs).
Proof.
  induction cs as [|c cs IH]; cbn [run_calls]; [apply traced_ret|].
  apply traced_bind.
  - destruct c; cbn [run_call];
      (apply traced_bind; [|intros ?; apply traced_ret]);
      auto using traced_d20, traced_d6, traced_check,
        traced_extendedCheck.
  - intros r. apply traced_bind; [exact IH|]. intros rs. apply traced_ret.
Qed.

(** *** Reseeding *)

Lemma reseed_and_run_unfold (seed : Z) (cs : list call) (w : world G) :
  reseed_and_run seed cs w = run_calls cs (set_rng (rs_seed seed) w).
Proof. reflexivity. Qed.

(** C8.  Take any seed and any sequence of calls to [d20], [d6],
    [check] and [extendedCheck].  Reseeding with that seed and making
    the calls, in whatever state the generator, the flags and the
    output were before, always returns: the same list of values, one per
    call, and the same final generator.  When [verboseRolls] is set the
    same way in both runs, the same lines, and so the same individual
    draws, are printed. *)
Theorem reseed_reproducible (seed : Z) (cs : list call)
    (w1 w2 : world G) :
  exists rs : list retval,
    fst (reseed_and_run seed cs w1) = Val rs
    /\ fst (reseed_and_run seed cs w2) = Val rs
    /\ length rs = length cs
    /\ rng (snd (reseed_and_run seed cs w1))
       = rng (snd (reseed_and_run seed cs w2))
    /\ (verboseRolls w1 = verboseRolls w2 ->
        exists out : list string,
          stdout (snd (reseed_and_run seed cs w1)) = stdout w1 ++ out
          /\ stdout (snd (reseed_and_run seed cs w2)) = stdout w2 ++ out).
Proof.
  rewrite !reseed_and_run_unfold.
  set (v1 := set_rng (rs_seed seed) w1).
  set (v2 := set_rng (rs_seed seed) w2).
  destruct (run_calls_returns cs v1) as (rs & v1' & E1 & Hlen).
  destruct (oblivious_run_calls cs v1 v2 eq_refl) as [Er Eg].
  exists rs. rewrite <- Er, E1.
  split; [reflexivity|]. split; [reflexivity|]. split; [exact Hlen|].
  split; [rewrite E1 in Eg; exact Eg|].
  intros Ev.
  destruct (traced_run_calls cs v1 v2) as (_ & _ & out & O1 & O2).
  { split; [reflexivity | exact Ev]. }
  rewrite E1 in O1. exists out. now split.
Qed.

End Mechanics.

(** ** The statements at concrete inputs *)

Lemma extendedCheck_budgeted_witness :
  0 < 30 /\ 0 < 2
  /\ exists (o : Outcome) (c : Z) (w' : world Scripted.t),
       extendedCheck 30 (Some 2) (scripted_world [10; 15]) = (Val (o, c), w')
       /\ 1 <= c <= 2
       /\ rng w'
          = snd (rs_draws 1 20 (Z.to_nat c) (rng (scripted_world [10; 15])))
       /\ (o = Fail
           <-> d20_sum (Z.to_nat 2) (rng (scripted_world [10; 15])) < 30)
       /\ (o = Fail -> c = 2)
       /\ (o <> Fail ->
           o = Success
           /\ 30 <= d20_sum (Z.to_nat c) (rng (scripted_world [10; 15]))
           /\ d20_sum (Z.to_nat (c - 1)) (rng (scripted_world [10; 15])) < 30).
Proof.
  split; [lia|]. split; [lia|].
  apply (extendedCheck_budgeted 30 2 (scripted_world [10; 15])); lia.
Defined.

Lemma extendedCheck_unlimited_witness :
  0 < 30
  /\ exists (c : Z) (w' : world Scripted.t),
       (forall fuel : nat,
           (Z.to_nat 30 <= fuel)%nat ->
           extendedCheck_loop fuel 30 None 0 0 (scripted_world [12; 7; 11])
           = (Val (Success, c), w'))
       /\ extendedCheck 30 None (scripted_world [12; 7; 11])
          = (Val (Success, c), w')
       /\ 1 <= c <= 30
       /\ 30 <= d20_sum (Z.to_nat c) (rng (scripted_world [12; 7; 11]))
       /\ d20_sum (Z.to_nat (c - 1)) (rng (scripted_world [12; 7; 11])) < 30
       /\ rng w'
          = snd (rs_draws 1 20 (Z.to_nat c)
                          (rng (scripted_world [12; 7; 11]))).
Proof.
  split; [lia|].
  apply (extendedCheck_unlimited 30 (scripted_world [12; 7; 11])); lia.
Defined.

Lemma extendedCheck_nonpositive_witness :
  -3 <= 0
  /\ extendedCheck (-3) (Some 2) (scripted_world [7])
     = (Val (Success, 0), scripted_world [7])
  /\ forall fuel : nat,
       extendedCheck_loop fuel (-3) (Some 2) 0 0 (scripted_world [7])
       = (Val (Success, 0), scripted_world [7]).
Proof.
  split; [lia|].
  apply (extendedCheck_nonpositive (-3) (Some 2) (scripted_world [7])); lia.
Defined.

Lemma extendedCheck_nonpositive_not_refused_witness :
  0 <= 0
  /\ fst (extendedCheck 0 None (scripted_world [7])) = Val (Success, 0)
  /\ ~ raised (fst (extendedCheck 0 None (scripted_world [7]))).
Proof.
  split; [lia|].
  apply (extendedCheck_nonpositive_not_refused 0 None (scripted_world [7])).
  lia.
Defined.

Lemma d6_nonpositive_witness :
  -2 <= 0
  /\ fst (d6 (-2) true (scripted_world [3; 4])) = Val (-12)
  /\ -12 <= 0
  /\ rng (snd (d6 (-2) true (scripted_world [3; 4])))
     = rng (scripted_world [3; 4])
  /\ rs_draws 1 6 (Z.to_nat (-2)) (rng (scripted_world [3; 4]))
     = ([], rng (scripted_world [3; 4])).
Proof.
  split; [lia|].
  apply (d6_nonpositive (-2) true (scripted_world [3; 4])); lia.
Defined.

Lemma d6_nonpositive_not_refused_witness :
  0 <= 0
  /\ ~ raised (fst (d6 0 false (scripted_world [3; 4])))
  /\ exists v : Z,
       fst (d6 0 false (scripted_world [3; 4])) = Val v /\ v = 0.
Proof.
  split; [lia|].
  apply (d6_nonpositive_not_refused 0 false (scripted_world [3; 4])); lia.
Defined.

(** [d6] with a count of zero, and with a negative count on a critical
    roll: no exception; the forced faces are still in the generator. *)
Lemma d6_nonpositive_count_returns :
  d6 0 false (scripted_world [3; 4])
  = (Val 0, mkWorld (Scripted.script [3; 4]) true true ["0D6: 0"%string])
  /\ ~ raised (fst (d6 0 false (scripted_world [3; 4])))
  /\ d6 (-2) true (scripted_world [3; 4])
     = (Val (-12),
        mkWorld (Scripted.script [3; 4]) true true ["-2D6+: -12"%string])
  /\ ~ raised (fst (d6 (-2) true (scripted_world [3; 4]))).
Proof.
  repeat split; intros [e He]; discriminate He.
Qed.

(** [extendedCheck] with a threshold of zero, and with a negative one:
    no exception, [(Success, 0)], and the world untouched. *)
Lemma extendedCheck_nonpositive_threshold_returns :
  extendedCheck 0 None (scripted_world [7])
  = (Val (Success, 0), scripted_world [7])
  /\ ~ raised (fst (extendedCheck 0 None (scripted_world [7])))
  /\ extendedCheck (-5) (Some 3) (scripted_world [7])
     = (Val (Success, 0), scripted_world [7])
  /\ ~ raised (fst (extendedCheck (-5) (Some 3) (scripted_world [7]))).
Proof.
  repeat split; intros [e He]; discriminate He.
Qed.

(** Reseeding from two worlds that differ in generator, flags and
    output. *)
Example reseed_twice :
  let cs := [Call_d20 2; Call_d6 3 true; Call_check 11 (-1);
             Call_extendedCheck 30 (Some 2); Call_extendedCheck 30 None] in
  fst (reseed_and_run 2024 cs (scripted_world [20; 20; 20]))
  = fst (reseed_and_run 2024 cs
           (mkWorld (Scripted.mk [] 99) false false ["earlier"%string])).
Proof. vm_compute. reflexivity. Qed.


(** * Further properties of the mechanics *)

Section Coverage.

Context {G : Type} `{RandomSource G}.

(** ** Damage rolls *)

(** What one call of [d6] does to the world and what it returns, for any
    count. *)
Lemma d6_run (count : Z) (critical : bool) (w : world G) :
  let n := Z.to_nat count in
  exists out : list string,
    d6 count critical w
    = (Val (py_sum (fst (rs_draws 1 6 n (rng w)))
            + (if critical then count * 6 else 0)),
       mkWorld (snd (rs_draws 1 6 n (rng w)))
               (verboseRolls w) (verboseAttributeChecks w)
               (stdout w ++ out)).
Proof.
  intros n. unfold d6, randints. unfold bind at 1.
  rewrite randints_nat_run by lia. fold n. cbv zeta.
  set (rolls := fst (rs_draws 1 6 n (rng w))).
  assert (Ev : (if critical then py_sum rolls + count * 6 else py_sum rolls)
               = py_sum rolls + (if critical then count * 6 else 0))
    by (destruct critical; lia).
  rewrite Ev.
  unfold bind, get_verboseRolls, print, ret, set_rng.
  cbn [rng verboseRolls verboseAttributeChecks stdout].
  destruct (verboseRolls w) eqn:Evr;
    [destruct (1 <? count); eexists | exists []; rewrite app_nil_r];
    cbn [rng verboseRolls verboseAttributeChecks stdout];
    rewrite ?Evr; reflexivity.
Qed.

(** X1.  For a count of zero or more, [d6] makes exactly [count] draws,
    each in [1..6], and returns a value between [count] and [6 * count]
    on a regular roll and between [7 * count] and [12 * count] on a
    critical one. *)
Theorem d6_range (count : Z) (critical : bool) (w : world G) :
  0 <= count ->
  let rolls := fst (rs_draws 1 6 (Z.to_nat count) (rng w)) in
  Z.of_nat (length rolls) = count
  /\ Forall (fun x => 1 <= x <= 6) rolls
  /\ rng (snd (d6 count critical w))
     = snd (rs_draws 1 6 (Z.to_nat count) (rng w))
  /\ exists v : Z,
       fst (d6 count critical w) = Val v
       /\ if critical then 7 * count <= v <= 12 * count
          else count <= v <= 6 * count.
Proof.
  intros Hc rolls.
  destruct (d6_run count critical w) as (out & E).
  pose proof (rs_draws_range 1 6 (Z.to_nat count) (rng w) ltac:(lia)) as R.
  pose proof (py_sum_bounds 1 6 _ R) as B.
  rewrite rs_draws_length in B.
  split; [subst rolls; rewrite rs_draws_length; lia|].
  split; [exact R|].
  rewrite E. split; [reflexivity|].
  eexists. split; [reflexivity|].
  subst rolls. destruct critical; lia.
Qed.

(** X2.  From the same world, a critical damage roll returns the value
    of the regular roll plus [6 * count], and both leave the same
    generator; this holds for every count. *)
Theorem d6_critical_bonus (count : Z) (w : world G) :
  exists v : Z,
    fst (d6 count false w) = Val v
    /\ fst (d6 count true w) = Val (v + 6 * count)
    /\ rng (snd (d6 count true w)) = rng (snd (d6 count false w)).
Proof.
  destruct (d6_run count false w) as (out1 & E1).
  destruct (d6_run count true w) as (out2 & E2).
  rewrite E1, E2. cbn [fst snd rng]. eexists. split; [reflexivity|].
  split; [apply f_equal; lia | reflexivity].
Qed.

(** X3.  Rolling [a + b] dice at once gives the sum of rolling [a] dice
    and then [b] dice, and leaves the same generator (counts of zero or
    more; the critical bonus adds up likewise). *)
Theorem d6_batches (a b : Z) (critical : bool) (w : world G) :
  0 <= a ->
  0 <= b ->
  exists (va vb : Z) (wa : world G),
    d6 a critical w = (Val va, wa)
    /\ fst (d6 b critical wa) = Val vb
    /\ fst (d6 (a + b) critical w) = Val (va + vb)
    /\ rng (snd (d6 (a + b) critical w)) = rng (snd (d6 b critical wa)).
Proof.
  intros Ha Hb.
  destruct (d6_run a critical w) as (outa & Ea).
  destruct (d6_run (a + b) critical w) as (outab & Eab).
  rewrite Ea, Eab.
  match goal with
  | |- context [(Val ?v, ?w1) = (Val _, _)] =>
      destruct (d6_run b critical w1) as (outb & Eb)
  end.
  do 3 eexists. split; [reflexivity|]. rewrite Eb.
  cbn [fst snd rng].
  replace (Z.to_nat (a + b)) with (Z.to_nat a + Z.to_nat b)%nat by lia.
  rewrite rs_draws_add. cbn [fst snd].
  split; [reflexivity|]. split; [|reflexivity].
  apply f_equal. rewrite py_sum_app. destruct critical; lia.
Qed.

(** ** Advantage and disadvantage *)

Lemma rs_draws_prefix_in (lo hi : Z) (n m : nat) (g : G) (x : Z) :
  (n <= m)%nat ->
  In x (fst (rs_draws lo hi n g)) -> In x (fst (rs_draws lo hi m g)).
Proof.
  intros Hle Hin. replace m with (n + (m - n))%nat by lia.
  rewrite rs_draws_add. cbn [fst]. apply in_or_app. now left.
Qed.

Lemma rs_draws_first_in (lo hi : Z) (n : nat) (g : G) :
  (0 < n)%nat -> In (fst (rs_randint lo hi g)) (fst (rs_draws lo hi n g)).
Proof.
  intros Hn. destruct n as [|k]; [lia|].
  rewrite rs_draws_S. now left.
Qed.

(** From the same world, the value of a roll grows with the signed
    advantage. *)
Lemma d20_value_mono (a b : Z) (w : world G) :
  a <= b ->
  exists ra rb : Z,
    fst (d20 a w) = Val ra /\ fst (d20 b w) = Val rb /\ ra <= rb.
Proof.
  intros Hab.
  destruct (d20_run a w) as (ra & outa & Ea & Ina & Maxa & Mina).
  destruct (d20_run b w) as (rb & outb & Eb & Inb & Maxb & Minb).
  exists ra, rb. rewrite Ea, Eb. split; [reflexivity|]. split; [reflexivity|].
  set (na := Z.to_nat (Z.abs a + 1)) in *.
  set (nb := Z.to_nat (Z.abs b + 1)) in *.
  destruct (Z_lt_le_dec 0 a) as [Hapos|Haneg].
  - specialize (Maxb ltac:(lia)). rewrite Forall_forall in Maxb.
    apply Maxb. apply (rs_draws_prefix_in 1 20 na nb); [subst na nb; lia|].
    exact Ina.
  - specialize (Mina Haneg). rewrite Forall_forall in Mina.
    destruct (Z_lt_le_dec 0 b) as [Hbpos|Hbneg].
    + specialize (Maxb Hbpos). rewrite Forall_forall in Maxb.
      pose proof (rs_draws_first_in 1 20 na (rng w) ltac:(subst na; lia)) as Fa.
      pose proof (rs_draws_first_in 1 20 nb (rng w) ltac:(subst nb; lia)) as Fb.
      specialize (Mina _ Fa). specialize (Maxb _ Fb). lia.
    + apply Mina. apply (rs_draws_prefix_in 1 20 nb na); [subst na nb; lia|].
      exact Inb.
Qed.

(** X4.  More advantage never lowers a roll: from the same world,
    [d20 a] returns at most what [d20 b] returns whenever [a <= b].  In
    particular a roll with disadvantage is at most the plain roll, which
    is at most the roll with advantage. *)
Theorem d20_monotone_in_advantage (a b : Z) (w : world G) :
  a <= b ->
  exists ra rb : Z,
    fst (d20 a w) = Val ra /\ fst (d20 b w) = Val rb /\ ra <= rb.
Proof. apply d20_value_mono. Qed.


(** ** Skill checks and their ordering *)

(** [check] in terms of the roll it makes. *)
Lemma check_run (threshold adv : Z) (w : world G) :
  exists roll : Z,
    fst (d20 adv w) = Val roll
    /\ 1 <= roll <= 20
    /\ fst (check threshold adv w)
       = Val (if roll =? 1 then CriticalFail
              else if roll =? 20 then CriticalSuccess
              else if roll <? threshold then Fail
              else if threshold <? roll then Success
              else NearFail).
Proof.
  destruct (d20_face_range adv w) as (roll & E & Hr).
  exists roll. split; [exact E|]. split; [exact Hr|].
  unfold check, bind. destruct (d20 adv w) as [r w'].
  cbn [fst] in E. subst r.
  destruct (roll =? 1), (roll =? 20), (roll <? threshold),
    (threshold <? roll); reflexivity.
Qed.

(** Splits the comparisons of a classification into arithmetic facts. *)
Ltac classify_cases :=
  repeat match goal with
    | |- context [?a =? ?b] =>
        destruct (Z.eqb_spec a b)
    | |- context [?a <? ?b] =>
        destruct (Z.ltb_spec a b)
    end;
  cbn [Outcome_value]; try lia.

(** The outcome, read as its integer, grows with the roll and shrinks
    with the threshold. *)
Lemma classification_mono (r1 r2 t1 t2 : Z) :
  1 <= r1 <= 20 -> 1 <= r2 <= 20 -> r1 <= r2 -> t2 <= t1 ->
  Outcome_value (if r1 =? 1 then CriticalFail
                 else if r1 =? 20 then CriticalSuccess
                 else if r1 <? t1 then Fail
                 else if t1 <? r1 then Success
                 else NearFail)
  <= Outcome_value (if r2 =? 1 then CriticalFail
                    else if r2 =? 20 then CriticalSuccess
                    else if r2 <? t2 then Fail
                    else if t2 <? r2 then Success
                    else NearFail).
Proof. intros H1 H2 Hr Ht. classify_cases. Qed.

(** X6.  A lower threshold never gives a worse outcome: from the same
    world and with the same advantage, the outcome of [check] against
    [t2] ranks at most as high as against [t1] when [t1 <= t2]. *)
Theorem check_monotone_in_threshold (t1 t2 adv : Z) (w : world G) :
  t1 <= t2 ->
  exists o1 o2 : Outcome,
    fst (check t1 adv w) = Val o1
    /\ fst (check t2 adv w) = Val o2
    /\ Outcome_value o2 <= Outcome_value o1.
Proof.
  intros Ht.
  destruct (check_run t1 adv w) as (r1 & E1 & H1 & C1).
  destruct (check_run t2 adv w) as (r2 & E2 & H2 & C2).
  assert (r2 = r1) by congruence. subst r2.
  rewrite C1, C2. do 2 eexists. split; [reflexivity|]. split; [reflexivity|].
  apply classification_mono; auto; lia.
Qed.

(** X7.  More advantage never gives a worse outcome: from the same world
    and against the same threshold, the outcome of [check] with
    advantage [a] ranks at most as high as with [b] when [a <= b]. *)
Theorem check_monotone_in_advantage (threshold a b : Z) (w : world G) :
  a <= b ->
  exists oa ob : Outcome,
    fst (check threshold a w) = Val oa
    /\ fst (check threshold b w) = Val ob
    /\ Outcome_value oa <= Outcome_value ob.
Proof.
  intros Hab.
  destruct (check_run threshold a w) as (ra & Ea & Ha & Ca).
  destruct (check_run threshold b w) as (rb & Eb & Hb & Cb).
  destruct (d20_value_mono a b w Hab) as (ra' & rb' & Ea' & Eb' & Hle).
  assert (ra' = ra) by congruence. assert (rb' = rb) by congruence.
  subst ra' rb'.
  rewrite Ca, Cb. do 2 eexists. split; [reflexivity|]. split; [reflexivity|].
  apply classification_mono; auto; lia.
Qed.

(** X8.  Which outcomes a threshold allows.  Against a threshold of 1
    or less [check] never returns [Fail] or [NearFail]; against a
    threshold of 20 or more it never returns [Success] or [NearFail], so
    that only a natural 20 succeeds.  [NearFail] needs a threshold
    between 2 and 19. *)
Theorem check_threshold_extremes (threshold adv : Z) (w : world G) :
  exists o : Outcome,
    fst (check threshold adv w) = Val o
    /\ (threshold <= 1 -> o <> Fail /\ o <> NearFail)
    /\ (20 <= threshold -> o <> Success /\ o <> NearFail)
    /\ (o = NearFail -> 2 <= threshold <= 19).
Proof.
  destruct (check_run threshold adv w) as (r & E & Hr & C).
  rewrite C. eexists. split; [reflexivity|].
  split; [|split].
  - intros Ht. split; classify_cases; discriminate.
  - intros Ht. split; classify_cases; discriminate.
  - classify_cases; intros Ho; try discriminate Ho; lia.
Qed.

(** ** Attributes *)

(** X9.  A higher score never gives a worse outcome: from the same
    world, with the same threshold and advantage,
    [Attribute.check] of an attribute with score [s1] ranks at most as
    high as that of one with score [s2] when [s1 <= s2], whatever their
    labels. *)
Theorem Attribute_check_monotone_in_score (s1 s2 : Z) (l1 l2 : string)
    (threshold adv : Z) (w : world G) :
  s1 <= s2 ->
  exists o1 o2 : Outcome,
    fst (Attribute_check (mkAttribute s1 l1) threshold adv w) = Val o1
    /\ fst (Attribute_check (mkAttribute s2 l2) threshold adv w) = Val o2
    /\ Outcome_value o1 <= Outcome_value o2.
Proof.
  intros Hs. rewrite !Attribute_check_run. unfold modifier. cbn [score label].
  match goal with
  | |- context [check (threshold - (s1 - 10)) adv ?wa] => set (w1 := wa)
  end.
  match goal with
  | |- context [check (threshold - (s2 - 10)) adv ?wb] => set (w2 := wb)
  end.
  assert (Eg : rng w1 = rng w2).
  { subst w1 w2. now destruct (verboseAttributeChecks w). }
  destruct (check_run (threshold - (s1 - 10)) adv w1) as (r1 & E1 & H1 & C1).
  destruct (check_run (threshold - (s2 - 10)) adv w2) as (r2 & E2 & H2 & C2).
  destruct (oblivious_d20 adv w1 w2 Eg) as [Er _].
  assert (r2 = r1) by congruence. subst r2.
  rewrite C1, C2. do 2 eexists. split; [reflexivity|]. split; [reflexivity|].
  apply classification_mono; auto; lia.
Qed.

(** X10.  The kind of an attribute is a label only: two attributes with
    the same score return the same outcome, the same extended result and
    leave the same generator, whatever their labels ([Strength],
    [Dexterity], ...). *)
Theorem Attribute_label_irrelevant (s : Z) (l1 l2 : string)
    (threshold adv : Z) (maxRolls : option Z) (w : world G) :
  (fst (Attribute_check (mkAttribute s l1) threshold adv w)
   = fst (Attribute_check (mkAttribute s l2) threshold adv w)
   /\ rng (snd (Attribute_check (mkAttribute s l1) threshold adv w))
      = rng (snd (Attribute_check (mkAttribute s l2) threshold adv w)))
  /\ (fst (Attribute_extendedCheck (mkAttribute s l1) threshold maxRolls w)
      = fst (Attribute_extendedCheck (mkAttribute s l2) threshold maxRolls w)
      /\ rng (snd (Attribute_extendedCheck (mkAttribute s l1) threshold
                                           maxRolls w))
         = rng (snd (Attribute_extendedCheck (mkAttribute s l2) threshold
                                             maxRolls w))).
Proof.
  rewrite !Attribute_check_run, !Attribute_extendedCheck_run.
  unfold modifier. cbn [score label].
  split; [apply oblivious_check | apply oblivious_extendedCheck];
    now destruct (verboseAttributeChecks w).
Qed.

(** ** Roll budgets of the extended check *)

Lemma d20_sum_upper (k : nat) (g : G) : d20_sum k g <= 20 * Z.of_nat k.
Proof.
  unfold d20_sum, d20_faces.
  pose proof (py_sum_bounds 1 20 _ (rs_draws_range 1 20 k g ltac:(lia))) as B.
  rewrite rs_draws_length in B. lia.
Qed.

Lemma extendedCheck_loop_zero_budget (fuel : nat) (threshold acc cnt : Z)
    (w : world G) :
  extendedCheck_loop fuel threshold (Some 0) acc cnt w
  = extendedCheck_loop fuel threshold None acc cnt w.
Proof.
  revert acc cnt w. induction fuel as [|fuel IH]; intros acc cnt w;
    rewrite !extendedCheck_loop_unfold;
    (destruct (acc <? threshold); [|reflexivity]);
    cbn [budget_spent truthy Z.eqb negb andb]; [reflexivity|].
  unfold bind. destruct (d20 0 w) as [[roll|e|] w1]; try reflexivity.
  apply IH.
Qed.

(** X11.  A budget of [0] is no budget: [extendedCheck threshold 0]
    runs exactly as [extendedCheck threshold None] does, for every
    threshold. *)
Theorem extendedCheck_zero_budget_unlimited (threshold : Z) (w : world G) :
  extendedCheck threshold (Some 0) w = extendedCheck threshold None w.
Proof. apply extendedCheck_loop_zero_budget. Qed.

(** X12.  A negative budget is spent before the first roll: against a
    positive threshold [extendedCheck] returns [Fail] with the negative
    budget itself as the count, draws nothing and prints nothing. *)
Theorem extendedCheck_negative_budget (threshold n : Z) (w : world G) :
  0 < threshold ->
  n < 0 ->
  extendedCheck threshold (Some n) w = (Val (Fail, n), w).
Proof.
  intros Ht Hn. unfold extendedCheck. rewrite extendedCheck_loop_unfold.
  replace (0 <? threshold) with true by (symmetry; now apply Z.ltb_lt).
  assert (Eb : budget_spent (Some n) 0 = Some n).
  { apply budget_spent_Some. lia. }
  now rewrite Eb.
Qed.

Lemma extendedCheck_loop_success_unlimited (fuel : nat) (threshold n : Z)
    (acc cnt c : Z) (w : world G) :
  fst (extendedCheck_loop fuel threshold (Some n) acc cnt w)
  = Val (Success, c) ->
  extendedCheck_loop fuel threshold None acc cnt w
  = extendedCheck_loop fuel threshold (Some n) acc cnt w.
Proof.
  revert acc cnt w. induction fuel as [|fuel IH]; intros acc cnt w;
    rewrite !extendedCheck_loop_unfold;
    (destruct (acc <? threshold); [|reflexivity]);
    (destruct (budget_spent (Some n) cnt) eqn:Eb; [discriminate|]);
    cbn [budget_spent]; [reflexivity|].
  unfold bind. destruct (d20 0 w) as [[roll|e|] w1]; try reflexivity.
  apply IH.
Qed.

Lemma extendedCheck_success_unlimited_run (threshold n c : Z)
    (w : world G) :
  fst (extendedCheck threshold (Some n) w) = Val (Success, c) ->
  extendedCheck threshold (Some n) w = extendedCheck threshold None w.
Proof.
  intros Hs. symmetry. unfold extendedCheck in *.
  now apply extendedCheck_loop_success_unlimited with (c := c).
Qed.

(** X13.  A budget only ever cuts a check short: whenever the budgeted
    check succeeds, it is the run of the unlimited check, with the same
    count, the same generator and the same output. *)
Theorem extendedCheck_success_is_unlimited (threshold n c : Z)
    (w : world G) :
  fst (extendedCheck threshold (Some n) w) = Val (Success, c) ->
  extendedCheck threshold (Some n) w = extendedCheck threshold None w.
Proof.
  apply extendedCheck_success_unlimited_run.
Qed.

(** X14.  A budget of at least the threshold is never spent: for
    [0 < threshold <= n] the check succeeds, within [threshold] rolls. *)
Theorem extendedCheck_sufficient_budget (threshold n : Z) (w : world G) :
  0 < threshold ->
  threshold <= n ->
  exists (c : Z) (w' : world G),
    extendedCheck threshold (Some n) w = (Val (Success, c), w')
    /\ 1 <= c <= threshold.
Proof.
  intros Ht Hn.
  destruct (extendedCheck_loop_run (Z.to_nat threshold) threshold (Some n)
              0 0 w ltac:(lia))
    as (k & o & c & w' & E & _ & _ & _ & Hbefore & Hend).
  rewrite !Z.add_0_l in Hend.
  assert (Hprev : (0 < k)%nat -> Z.of_nat k <= threshold).
  { intros Hk. destruct (Hbefore (k - 1)%nat ltac:(lia)) as [Hs _].
    rewrite Z.add_0_l in Hs.
    pose proof (d20_sum_lower (k - 1) (rng w)). lia. }
  destruct Hend as [(-> & -> & Hs)|(_ & Hs & Hbud)].
  - exists (Z.of_nat k), w'. split; [exact E|].
    assert (Hk : (0 < k)%nat).
    { destruct k; [rewrite d20_sum_0 in Hs; lia | lia]. }
    specialize (Hprev Hk). lia.
  - apply budget_spent_Some in Hbud. destruct Hbud as (_ & Hnk & _).
    pose proof (d20_sum_lower k (rng w)). lia.
Qed.

(** X15.  A budget too small for the threshold always fails: when even
    [n] twenties fall short, [20 * n < threshold], the check makes
    exactly [n] rolls and returns [(Fail, n)]. *)
Theorem extendedCheck_insufficient_budget (threshold n : Z) (w : world G) :
  0 < n ->
  20 * n < threshold ->
  exists w' : world G,
    extendedCheck threshold (Some n) w = (Val (Fail, n), w')
    /\ rng w' = snd (rs_draws 1 20 (Z.to_nat n) (rng w)).
Proof.
  intros Hn Ht.
  destruct (extendedCheck_loop_run (Z.to_nat threshold) threshold (Some n)
              0 0 w ltac:(lia))
    as (k & o & c & w' & E & Hrng & _ & _ & Hbefore & Hend).
  rewrite !Z.add_0_l in Hend.
  assert (Hprev : (0 < k)%nat -> Z.of_nat k <= n).
  { intros Hk. destruct (Hbefore (k - 1)%nat ltac:(lia)) as [_ Hb].
    rewrite Z.add_0_l in Hb. apply budget_spent_None in Hb. lia. }
  destruct Hend as [(_ & _ & Hs)|(-> & Hs & Hbud)].
  - pose proof (d20_sum_upper k (rng w)).
    destruct k; [rewrite d20_sum_0 in Hs; lia|].
    specialize (Hprev ltac:(lia)). lia.
  - apply budget_spent_Some in Hbud. destruct Hbud as (_ & Hnk & ->).
    specialize (Hprev ltac:(lia)).
    replace (Z.to_nat n) with k by lia.
    exists w'. now split.
Qed.

(** X16.  How long an unlimited check takes: for a positive threshold
    the count [c] it returns satisfies [threshold <= 20 * c] and
    [c <= threshold], since every roll adds between 1 and 20. *)
Theorem extendedCheck_unlimited_count_bounds (threshold : Z) (w : world G) :
  0 < threshold ->
  exists (c : Z) (w' : world G),
    extendedCheck threshold None w = (Val (Success, c), w')
    /\ threshold <= 20 * c
    /\ c <= threshold.
Proof.
  intros Ht.
  destruct (extendedCheck_loop_run (Z.to_nat threshold) threshold None
              0 0 w ltac:(lia))
    as (k & o & c & w' & E & _ & _ & _ & Hbefore & Hend).
  rewrite !Z.add_0_l in Hend.
  destruct Hend as [(-> & -> & Hs)|(_ & _ & Hbud)]; [|discriminate].
  exists (Z.of_nat k), w'. split; [exact E|].
  pose proof (d20_sum_upper k (rng w)). split; [lia|].
  destruct k as [|k]; [lia|].
  destruct (Hbefore k ltac:(lia)) as [Hp _]. rewrite Z.add_0_l in Hp.
  pose proof (d20_sum_lower k (rng w)). lia.
Qed.

(** ** Tracing *)

(** X17.  The verbosity flags and what was printed before have no say
    in the mechanics: from two worlds that hold the same generator, each
    of [d20], [d6], [check] and [extendedCheck] returns the same result
    and leaves the same generator. *)
Theorem tracing_does_not_affect_results (w1 w2 : world G) :
  rng w1 = rng w2 ->
  (forall adv : Z,
      fst (d20 adv w1) = fst (d20 adv w2)
      /\ rng (snd (d20 adv w1)) = rng (snd (d20 adv w2)))
  /\ (forall (count : Z) (critical : bool),
         fst (d6 count critical w1) = fst (d6 count critical w2)
         /\ rng (snd (d6 count critical w1))
            = rng (snd (d6 count critical w2)))
  /\ (forall threshold adv : Z,
         fst (check threshold adv w1) = fst (check threshold adv w2)
         /\ rng (snd (check threshold adv w1))
            = rng (snd (check threshold adv w2)))
  /\ (forall (threshold : Z) (maxRolls : option Z),
         fst (extendedCheck threshold maxRolls w1)
         = fst (extendedCheck threshold maxRolls w2)
         /\ rng (snd (extendedCheck threshold maxRolls w1))
            = rng (snd (extendedCheck threshold maxRolls w2))).
Proof.
  intros E. repeat apply conj; intros.
  - now apply oblivious_d20.
  - now apply oblivious_d6.
  - now apply oblivious_check.
  - now apply oblivious_extendedCheck.
Qed.

(** The lines one roll prints. *)
Lemma d20_trace (adv : Z) (w : world G) :
  exists out : list string,
    stdout (snd (d20 adv w)) = stdout w ++ out
    /\ length out = if verboseRolls w then 1%nat else 0%nat.
Proof.
  pose proof (rs_draws_nonempty 1 20 (Z.to_nat (Z.abs adv + 1)) (rng w)
                ltac:(lia)) as Hne.
  unfold d20, randints. unfold bind at 1.
  rewrite randints_nat_run by lia.
  destruct (fst (rs_draws 1 20 (Z.to_nat (Z.abs adv + 1)) (rng w)))
    as [|x rest]; [congruence|].
  unfold bind, py_max, py_min, ret, get_verboseRolls, print, set_rng.
  cbn [rng verboseRolls verboseAttributeChecks stdout].
  destruct (0 <? adv); cbn [rng verboseRolls verboseAttributeChecks stdout];
    (destruct (verboseRolls w) eqn:Ev;
     [destruct (negb (adv =? 0)); eexists | exists []; rewrite app_nil_r];
     cbn [snd stdout]; split; reflexivity).
Qed.

Lemma d6_trace (count : Z) (critical : bool) (w : world G) :
  exists out : list string,
    stdout (snd (d6 count critical w)) = stdout w ++ out
    /\ length out = if verboseRolls w then 1%nat else 0%nat.
Proof.
  unfold d6, randints. unfold bind at 1.
  rewrite randints_nat_run by lia. cbv zeta.
  unfold bind, ret, get_verboseRolls, print, set_rng.
  cbn [rng verboseRolls verboseAttributeChecks stdout].
  destruct (verboseRolls w) eqn:Ev;
    [destruct (1 <? count); eexists | exists []; rewrite app_nil_r];
    cbn [snd stdout]; split; reflexivity.
Qed.

(** X18.  With [verboseRolls] on, every call of [d20], [d6] and [check]
    prints exactly one line; with it off, none.  Earlier output is
    kept. *)
Theorem one_line_per_roll (w : world G) :
  (forall adv : Z,
      exists out : list string,
        stdout (snd (d20 adv w)) = stdout w ++ out
        /\ length out = if verboseRolls w then 1%nat else 0%nat)
  /\ (forall (count : Z) (critical : bool),
         exists out : list string,
           stdout (snd (d6 count critical w)) = stdout w ++ out
           /\ length out = if verboseRolls w then 1%nat else 0%nat)
  /\ (forall threshold adv : Z,
         exists out : list string,
           stdout (snd (check threshold adv w)) = stdout w ++ out
           /\ length out = if verboseRolls w then 1%nat else 0%nat).
Proof.
  repeat apply conj; intros.
  - apply d20_trace.
  - apply d6_trace.
  - destruct (d20_trace adv w) as (out & E & L). exists out.
    split; [|exact L]. rewrite <- E.
    unfold check, bind. destruct (d20 adv w) as [[roll|e|] w']; try reflexivity.
    destruct (roll =? 1), (roll =? 20), (roll <? threshold),
      (threshold <? roll); reflexivity.
Qed.

(** A plain roll, with the lines it prints. *)
Lemma d20_plain_trace (w : world G) :
  exists out : list string,
    d20 0 w
    = (Val (fst (rs_randint 1 20 (rng w))),
       mkWorld (snd (rs_randint 1 20 (rng w)))
               (verboseRolls w) (verboseAttributeChecks w)
               (stdout w ++ out))
    /\ length out = if verboseRolls w then 1%nat else 0%nat.
Proof.
  destruct (d20_plain_run w) as (out & E).
  destruct (d20_trace 0 w) as (out' & E' & L).
  rewrite E in E'. cbn [snd stdout] in E'. apply app_inv_head in E'.
  subst out'. now exists out.
Qed.

(** The loop prints as many lines as it makes rolls. *)
Lemma extendedCheck_loop_trace (fuel : nat) (threshold : Z)
    (maxRolls : option Z) (acc cnt : Z) (w : world G) :
  threshold - acc <= Z.of_nat fuel ->
  exists (k : nat) (o : Outcome) (c : Z) (w' : world G) (out : list string),
    extendedCheck_loop fuel threshold maxRolls acc cnt w = (Val (o, c), w')
    /\ stdout w' = stdout w ++ out
    /\ length out = (if verboseRolls w then k else 0%nat)
    /\ (forall j : nat, (j < k)%nat ->
          budget_spent maxRolls (cnt + Z.of_nat j) = None)
    /\ ((o = Success /\ c = cnt + Z.of_nat k)
        \/ (o = Fail /\ budget_spent maxRolls (cnt + Z.of_nat k) = Some c)).
Proof.
  revert acc cnt w.
  induction fuel as [|fuel IH]; intros acc cnt w Hfuel;
    rewrite extendedCheck_loop_unfold;
    (destruct (acc <? threshold) eqn:Eacc;
     [apply Z.ltb_lt in Eacc
     |exists 0%nat, Success, cnt, w, []; rewrite app_nil_r, Z.add_0_r;
      repeat split; try lia; try (now destruct (verboseRolls w));
      now left]);
    (destruct (budget_spent maxRolls cnt) as [n|] eqn:Eb;
     [exists 0%nat, Fail, n, w, []; rewrite app_nil_r, Z.add_0_r;
      repeat split; try lia; try (now destruct (verboseRolls w));
      now right
     |]).
  - lia.
  - destruct (d20_plain_trace w) as (out1 & Ed & L1).
    pose proof (rs_randint_range 1 20 (rng w) ltac:(lia)) as Hx.
    unfold bind. rewrite Ed.
    match goal with
    | |- context [extendedCheck_loop fuel _ _ ?a ?n ?w1] =>
        destruct (IH a n w1 ltac:(lia))
          as (k & o & c & w' & out & Erun & Hout & L & Hbefore & Hend)
    end.
    cbn [verboseRolls stdout] in Hout, L.
    exists (S k), o, c, w', (out1 ++ out).
    split; [exact Erun|]. split; [now rewrite Hout, app_assoc|].
    split; [rewrite length_app, L1, L; now destruct (verboseRolls w)|].
    replace (cnt + Z.of_nat (S k)) with (cnt + 1 + Z.of_nat k) by lia.
    split; [|destruct Hend as [[Ho Hc]|[Ho Hb]]; [left | right];
             split; auto; lia].
    intros [|j] Hj; [now rewrite Z.add_0_r|].
    replace (cnt + Z.of_nat (S j)) with (cnt + 1 + Z.of_nat j) by lia.
    apply Hbefore. lia.
Qed.

(** X19.  An extended check prints one line per roll: when the budget
    is not negative, the number of lines it adds to the output with
    [verboseRolls] on is the count it returns, and with [verboseRolls]
    off it adds none. *)
Theorem extendedCheck_one_line_per_roll (threshold : Z)
    (maxRolls : option Z) (w : world G) :
  match maxRolls with Some n => 0 <= n | None => True end ->
  exists (o : Outcome) (c : Z) (w' : world G) (out : list string),
    extendedCheck threshold maxRolls w = (Val (o, c), w')
    /\ stdout w' = stdout w ++ out
    /\ Z.of_nat (length out) = if verboseRolls w then c else 0.
Proof.
  intros Hm.
  destruct (extendedCheck_loop_trace (Z.to_nat threshold) threshold maxRolls
              0 0 w ltac:(lia))
    as (k & o & c & w' & out & E & Hout & L & Hbefore & Hend).
  exists o, c, w', out. split; [exact E|]. split; [exact Hout|].
  rewrite L. rewrite !Z.add_0_l in Hend.
  assert (Hc : c = Z.of_nat k).
  { destruct Hend as [[_ Hc]|[_ Hb]]; [exact Hc|].
    destruct maxRolls as [n|]; [|discriminate].
    apply budget_spent_Some in Hb. destruct Hb as (Hnz & Hnk & ->).
    destruct k as [|k]; [lia|].
    specialize (Hbefore k ltac:(lia)). rewrite Z.add_0_l in Hbefore.
    apply budget_spent_None in Hbefore. lia. }
  subst c. now destruct (verboseRolls w).
Qed.

(** ** Budgets and thresholds compared *)

(** X20.  Raising the budget never changes a check that succeeded: if
    the check succeeds under a positive budget [n], then under every
    budget [m >= n] it is the very same run. *)
Theorem extendedCheck_larger_budget (threshold n m c : Z) (w : world G) :
  0 < n ->
  n <= m ->
  fst (extendedCheck threshold (Some n) w) = Val (Success, c) ->
  extendedCheck threshold (Some m) w = extendedCheck threshold (Some n) w.
Proof.
  intros Hn Hnm Hs.
  destruct (extendedCheck_loop_run (Z.to_nat threshold) threshold (Some n)
              0 0 w ltac:(lia))
    as (k & o & c' & w' & E & _ & _ & _ & Hbefore & Hend).
  fold (extendedCheck threshold (Some n) w) in E.
  rewrite E in Hs. cbn [fst] in Hs. injection Hs as -> ->.
  rewrite !Z.add_0_l in Hend.
  destruct Hend as [(_ & _ & Hsum)|(Ho & _)]; [|discriminate].
  assert (Hk : Z.of_nat k <= n).
  { destruct k as [|k]; [lia|].
    destruct (Hbefore k ltac:(lia)) as [_ Hb]. rewrite Z.add_0_l in Hb.
    apply budget_spent_None in Hb. lia. }
  destruct (extendedCheck_loop_run (Z.to_nat threshold) threshold (Some m)
              0 0 w ltac:(lia))
    as (km & om & cm & wm & Em & _ & _ & _ & _ & Hendm).
  fold (extendedCheck threshold (Some m) w) in Em.
  rewrite !Z.add_0_l in Hendm.
  destruct Hendm as [(-> & _ & _)|(_ & Hsm & Hbm)].
  - rewrite (extendedCheck_success_unlimited_run threshold m cm w)
      by (now rewrite Em).
    rewrite (extendedCheck_success_unlimited_run threshold n c w)
      by (now rewrite E).
    reflexivity.
  - apply budget_spent_Some in Hbm. destruct Hbm as (_ & Hmk & _).
    pose proof (d20_sum_mono k km (rng w) ltac:(lia)). lia.
Qed.

(** The outcome and the count of an extended check against two
    thresholds. *)
Lemma extendedCheck_threshold_mono (t1 t2 : Z) (maxRolls : option Z)
    (g : G) (w1 w2 : world G) :
  rng w1 = g -> rng w2 = g -> t1 <= t2 ->
  exists (o1 o2 : Outcome) (c1 c2 : Z),
    fst (extendedCheck t1 maxRolls w1) = Val (o1, c1)
    /\ fst (extendedCheck t2 maxRolls w2) = Val (o2, c2)
    /\ Outcome_value o2 <= Outcome_value o1
    /\ (o2 = Success -> c1 <= c2).
Proof.
  intros Eg1 Eg2 Ht.
  destruct (extendedCheck_loop_run (Z.to_nat t1) t1 maxRolls 0 0 w1
              ltac:(lia))
    as (k1 & o1 & c1 & v1 & E1 & _ & _ & _ & Hb1 & Hend1).
  destruct (extendedCheck_loop_run (Z.to_nat t2) t2 maxRolls 0 0 w2
              ltac:(lia))
    as (k2 & o2 & c2 & v2 & E2 & _ & _ & _ & Hb2 & Hend2).
  fold (extendedCheck t1 maxRolls w1) in E1.
  fold (extendedCheck t2 maxRolls w2) in E2.
  rewrite Eg1 in Hb1, Hend1. rewrite Eg2 in Hb2, Hend2.
  exists o1, o2, c1, c2. rewrite E1, E2.
  split; [reflexivity|]. split; [reflexivity|].
  rewrite !Z.add_0_l in Hend1, Hend2.
  pose proof (d20_sum_lower k1 g) as L1.
  destruct Hend1 as [(-> & -> & Hs1)|(-> & Hs1 & Hbud1)].
  - split; [destruct Hend2 as [(-> & _)|(-> & _)]; cbn; lia|].
    intros ->. destruct Hend2 as [(_ & -> & Hs2)|(Ho & _)]; [|discriminate].
    destruct (Nat.le_gt_cases k1 k2) as [Hle|Hgt]; [lia|].
    destruct (Hb1 (k1 - 1)%nat ltac:(lia)) as [Hp _].
    rewrite Z.add_0_l in Hp.
    pose proof (d20_sum_mono k2 (k1 - 1) g ltac:(lia)). lia.
  - destruct Hend2 as [(-> & -> & Hs2)|(-> & _)].
    + exfalso. destruct maxRolls as [n|]; [|discriminate].
      apply budget_spent_Some in Hbud1. destruct Hbud1 as (Hnz & Hnk & _).
      destruct k2 as [|k2]; [rewrite d20_sum_0 in Hs2; lia|].
      destruct (Hb2 k2 ltac:(lia)) as [_ Hbn]. rewrite Z.add_0_l in Hbn.
      apply budget_spent_None in Hbn.
      pose proof (d20_sum_mono (S k2) k1 g ltac:(lia)). lia.
    + split; [cbn; lia | discriminate].
Qed.

(** X21.  A lower threshold never makes an extended check worse or
    longer: from the same world and under the same budget, the outcome
    against [t1 <= t2] ranks at least as high as against [t2], and when
    the check against [t2] succeeds, the one against [t1] takes at most
    as many rolls. *)
Theorem extendedCheck_monotone_in_threshold (t1 t2 : Z)
    (maxRolls : option Z) (w : world G) :
  t1 <= t2 ->
  exists (o1 o2 : Outcome) (c1 c2 : Z),
    fst (extendedCheck t1 maxRolls w) = Val (o1, c1)
    /\ fst (extendedCheck t2 maxRolls w) = Val (o2, c2)
    /\ Outcome_value o2 <= Outcome_value o1
    /\ (o2 = Success -> c1 <= c2).
Proof. intros Ht. now apply extendedCheck_threshold_mono with (g := rng w). Qed.

(** X22.  A higher score never makes an attribute's extended check
    worse or longer: from the same world, with the same threshold and
    budget, the outcome for score [s2 >= s1] ranks at least as high, and
    when the check for [s1] succeeds, the one for [s2] takes at most as
    many rolls. *)
Theorem Attribute_extendedCheck_monotone_in_score (s1 s2 : Z)
    (l1 l2 : string) (threshold : Z) (maxRolls : option Z) (w : world G) :
  s1 <= s2 ->
  exists (o1 o2 : Outcome) (c1 c2 : Z),
    fst (Attribute_extendedCheck (mkAttribute s1 l1) threshold maxRolls w)
    = Val (o1, c1)
    /\ fst (Attribute_extendedCheck (mkAttribute s2 l2) threshold maxRolls w)
       = Val (o2, c2)
    /\ Outcome_value o1 <= Outcome_value o2
    /\ (o1 = Success -> c2 <= c1).
Proof.
  intros Hs. rewrite !Attribute_extendedCheck_run.
  unfold modifier. cbn [score label].
  match goal with
  | |- context [extendedCheck (threshold - (s1 - 10)) maxRolls ?wa] =>
      set (w1 := wa)
  end.
  match goal with
  | |- context [extendedCheck (threshold - (s2 - 10)) maxRolls ?wb] =>
      set (w2 := wb)
  end.
  destruct (extendedCheck_threshold_mono
              (threshold - (s2 - 10)) (threshold - (s1 - 10)) maxRolls
              (rng w) w2 w1)
    as (o2 & o1 & c2 & c1 & E2 & E1 & Ho & Hc).
  - subst w2. now destruct (verboseAttributeChecks w).
  - subst w1. now destruct (verboseAttributeChecks w).
  - lia.
  - exists o1, o2, c1, c2. auto.
Qed.

(** ** Draws used by a skill check *)

(** X23.  A skill check uses exactly [|adv| + 1] draws, whatever the
    threshold and whatever the outcome: a natural 1 or 20 among the first
    draws does not stop the others from being made. *)
Theorem check_draws (threshold adv : Z) (w : world G) :
  rng (snd (check threshold adv w))
  = snd (rs_draws 1 20 (Z.to_nat (Z.abs adv + 1)) (rng w)).
Proof.
  destruct (d20_run adv w) as (r & out & E & _).
  unfold check, bind. rewrite E.
  destruct (r =? 1), (r =? 20), (r <? threshold), (threshold <? r);
    reflexivity.
Qed.

(** ** The modifier line *)

Lemma check_trace (threshold adv : Z) (w : world G) :
  exists out : list string,
    stdout (snd (check threshold adv w)) = stdout w ++ out
    /\ length out = if verboseRolls w then 1%nat else 0%nat.
Proof.
  destruct (d20_trace adv w) as (out & E & L). exists out.
  split; [|exact L]. rewrite <- E.
  unfold check, bind. destruct (d20 adv w) as [[roll|e|] w']; try reflexivity.
  destruct (roll =? 1), (roll =? 20), (roll <? threshold),
    (threshold <? roll); reflexivity.
Qed.

(** X24.  What an attribute check prints: with
    [verboseAttributeChecks] on, first the line
    ["<label> modifier: <score - 10>"], then the line of the roll if
    [verboseRolls] is on; with both flags off, nothing. *)
Theorem Attribute_check_trace (self : Attribute) (threshold adv : Z)
    (w : world G) :
  exists out : list string,
    stdout (snd (Attribute_check self threshold adv w))
    = stdout w
        ++ (if verboseAttributeChecks w
            then [(label self ++ " modifier: "
                     ++ str_int (score self - 10))%string]
            else [])
        ++ out
    /\ length out = if verboseRolls w then 1%nat else 0%nat.
Proof.
  rewrite Attribute_check_run.
  match goal with
  | |- context [check _ adv ?wa] => set (wp := wa)
  end.
  destruct (check_trace (threshold - modifier self) adv wp) as (out & E & L).
  exists out. rewrite E. subst wp. unfold modifier in *.
  destruct (verboseAttributeChecks w); cbn [snd print stdout verboseRolls] in *.
  - rewrite <- app_assoc. now split.
  - now split.
Qed.

End Coverage.

(** ** The further properties at concrete inputs *)

Lemma d6_range_witness :
  0 <= 2
  /\ Z.of_nat (length (fst (rs_draws 1 6 (Z.to_nat 2)
                                     (rng (scripted_world [2; 5]))))) = 2
  /\ Forall (fun x => 1 <= x <= 6)
            (fst (rs_draws 1 6 (Z.to_nat 2) (rng (scripted_world [2; 5]))))
  /\ rng (snd (d6 2 true (scripted_world [2; 5])))
     = snd (rs_draws 1 6 (Z.to_nat 2) (rng (scripted_world [2; 5])))
  /\ exists v : Z,
       fst (d6 2 true (scripted_world [2; 5])) = Val v
       /\ 7 * 2 <= v <= 12 * 2.
Proof.
  split; [lia|]. apply (d6_range 2 true (scripted_world [2; 5])). lia.
Defined.

Lemma d6_batches_witness :
  0 <= 1 /\ 0 <= 2
  /\ exists (va vb : Z) (wa : world Scripted.t),
       d6 1 false (scripted_world [1; 3; 1]) = (Val va, wa)
       /\ fst (d6 2 false wa) = Val vb
       /\ fst (d6 (1 + 2) false (scripted_world [1; 3; 1])) = Val (va + vb)
       /\ rng (snd (d6 (1 + 2) false (scripted_world [1; 3; 1])))
          = rng (snd (d6 2 false wa)).
Proof.
  split; [lia|]. split; [lia|].
  apply (d6_batches 1 2 false (scripted_world [1; 3; 1])); lia.
Defined.

Lemma d20_monotone_in_advantage_witness :
  -1 <= 2
  /\ exists ra rb : Z,
       fst (d20 (-1) (scripted_world [9; 4; 16])) = Val ra
       /\ fst (d20 2 (scripted_world [9; 4; 16])) = Val rb
       /\ ra <= rb.
Proof.
  split; [lia|].
  apply (d20_monotone_in_advantage (-1) 2 (scripted_world [9; 4; 16])). lia.
Defined.

Lemma check_monotone_in_threshold_witness :
  11 <= 15
  /\ exists o1 o2 : Outcome,
       fst (check 11 0 (scripted_world [12])) = Val o1
       /\ fst (check 15 0 (scripted_world [12])) = Val o2
       /\ Outcome_value o2 <= Outcome_value o1.
Proof.
  split; [lia|].
  apply (check_monotone_in_threshold 11 15 0 (scripted_world [12])). lia.
Defined.

Lemma check_monotone_in_advantage_witness :
  -1 <= 1
  /\ exists oa ob : Outcome,
       fst (check 10 (-1) (scripted_world [4; 17])) = Val oa
       /\ fst (check 10 1 (scripted_world [4; 17])) = Val ob
       /\ Outcome_value oa <= Outcome_value ob.
Proof.
  split; [lia|].
  apply (check_monotone_in_advantage 10 (-1) 1 (scripted_world [4; 17])). lia.
Defined.

Lemma Attribute_check_monotone_in_score_witness :
  8 <= 14
  /\ exists o1 o2 : Outcome,
       fst (Attribute_check (mkAttribute 8 "Str") 15 0 (scripted_world [12]))
       = Val o1
       /\ fst (Attribute_check (mkAttribute 14 "Dex") 15 0
                               (scripted_world [12]))
          = Val o2
       /\ Outcome_value o1 <= Outcome_value o2.
Proof.
  split; [lia|].
  apply (Attribute_check_monotone_in_score 8 14 "Str" "Dex" 15 0
           (scripted_world [12])).
  lia.
Defined.

Lemma extendedCheck_negative_budget_witness :
  0 < 30 /\ -2 < 0
  /\ extendedCheck 30 (Some (-2)) (scripted_world [10; 15])
     = (Val (Fail, -2), scripted_world [10; 15]).
Proof.
  split; [lia|]. split; [lia|].
  apply (extendedCheck_negative_budget 30 (-2) (scripted_world [10; 15])); lia.
Defined.

Lemma extendedCheck_success_is_unlimited_witness :
  fst (extendedCheck 30 (Some 5) (scripted_world [12; 7; 11]))
  = Val (Success, 3)
  /\ extendedCheck 30 (Some 5) (scripted_world [12; 7; 11])
     = extendedCheck 30 None (scripted_world [12; 7; 11]).
Proof.
  split; [reflexivity|].
  apply (extendedCheck_success_is_unlimited 30 5 3
           (scripted_world [12; 7; 11])).
  reflexivity.
Defined.

Lemma extendedCheck_sufficient_budget_witness :
  0 < 30 /\ 30 <= 40
  /\ exists (c : Z) (w' : world Scripted.t),
       extendedCheck 30 (Some 40) (scripted_world [12; 7; 11])
       = (Val (Success, c), w')
       /\ 1 <= c <= 30.
Proof.
  split; [lia|]. split; [lia|].
  apply (extendedCheck_sufficient_budget 30 40 (scripted_world [12; 7; 11]));
    lia.
Defined.

Lemma extendedCheck_insufficient_budget_witness :
  0 < 2 /\ 20 * 2 < 41
  /\ exists w' : world Scripted.t,
       extendedCheck 41 (Some 2) (scripted_world [20; 20]) = (Val (Fail, 2), w')
       /\ rng w'
          = snd (rs_draws 1 20 (Z.to_nat 2) (rng (scripted_world [20; 20]))).
Proof.
  split; [lia|]. split; [lia|].
  apply (extendedCheck_insufficient_budget 41 2 (scripted_world [20; 20]));
    lia.
Defined.

Lemma extendedCheck_unlimited_count_bounds_witness :
  0 < 30
  /\ exists (c : Z) (w' : world Scripted.t),
       extendedCheck 30 None (scripted_world [12; 7; 11])
       = (Val (Success, c), w')
       /\ 30 <= 20 * c
       /\ c <= 30.
Proof.
  split; [lia|].
  apply (extendedCheck_unlimited_count_bounds 30
           (scripted_world [12; 7; 11])).
  lia.
Defined.

Lemma tracing_does_not_affect_results_witness :
  rng (scripted_world [9; 4; 16])
  = rng (mkWorld (Scripted.script [9; 4; 16]) false false ["earlier"%string])
  /\ fst (d20 2 (scripted_world [9; 4; 16]))
     = fst (d20 2 (mkWorld (Scripted.script [9; 4; 16]) false false
                           ["earlier"%string])).
Proof.
  split; [reflexivity|].
  apply (tracing_does_not_affect_results
           (scripted_world [9; 4; 16])
           (mkWorld (Scripted.script [9; 4; 16]) false false
                    ["earlier"%string])
           eq_refl).
Defined.

Lemma extendedCheck_one_line_per_roll_witness :
  0 <= 2
  /\ exists (o : Outcome) (c : Z) (w' : world Scripted.t)
            (out : list string),
       extendedCheck 30 (Some 2) (scripted_world [10; 15]) = (Val (o, c), w')
       /\ stdout w' = stdout (scripted_world [10; 15]) ++ out
       /\ Z.of_nat (length out) = c.
Proof.
  split; [lia|].
  apply (extendedCheck_one_line_per_roll 30 (Some 2)
           (scripted_world [10; 15])).
  cbn. lia.
Defined.

Lemma extendedCheck_larger_budget_witness :
  0 < 3 /\ 3 <= 10
  /\ fst (extendedCheck 30 (Some 3) (scripted_world [12; 7; 11]))
     = Val (Success, 3)
  /\ extendedCheck 30 (Some 10) (scripted_world [12; 7; 11])
     = extendedCheck 30 (Some 3) (scripted_world [12; 7; 11]).
Proof.
  split; [lia|]. split; [lia|]. split; [reflexivity|].
  apply (extendedCheck_larger_budget 30 3 10 3 (scripted_world [12; 7; 11]));
    [lia | lia | reflexivity].
Defined.

Lemma extendedCheck_monotone_in_threshold_witness :
  15 <= 30
  /\ exists (o1 o2 : Outcome) (c1 c2 : Z),
       fst (extendedCheck 15 (Some 2) (scripted_world [10; 15]))
       = Val (o1, c1)
       /\ fst (extendedCheck 30 (Some 2) (scripted_world [10; 15]))
          = Val (o2, c2)
       /\ Outcome_value o2 <= Outcome_value o1
       /\ (o2 = Success -> c1 <= c2).
Proof.
  split; [lia|].
  apply (extendedCheck_monotone_in_threshold 15 30 (Some 2)
           (scripted_world [10; 15])).
  lia.
Defined.

Lemma Attribute_extendedCheck_monotone_in_score_witness :
  8 <= 14
  /\ exists (o1 o2 : Outcome) (c1 c2 : Z),
       fst (Attribute_extendedCheck (mkAttribute 8 "Int") 30 None
                                    (scripted_world [12; 7; 11]))
       = Val (o1, c1)
       /\ fst (Attribute_extendedCheck (mkAttribute 14 "Int") 30 None
                                       (scripted_world [12; 7; 11]))
          = Val (o2, c2)
       /\ Outcome_value o1 <= Outcome_value o2
       /\ (o1 = Success -> c2 <= c1).
Proof.
  split; [lia|].
  apply (Attribute_extendedCheck_monotone_in_score 8 14 "Int" "Int" 30 None
           (scripted_world [12; 7; 11])).
  lia.
Defined.
